(** * Terraform provisioner: a shallow embedding of provision.go

    The development follows [provisioner/terraform/provision.go]:
    the structured-log relay and [convertTerraformLogLevel], the
    dependency-graph extractor [findDirectDependencies], the two
    resource/agent correlators [parseTerraformPlan] and
    [parseTerraformApply], and the session procedure [Provision].

    Go strings are byte sequences and are modelled by [string]; Go maps
    are [gmap]s; calls that leave the program (the operating system, the
    engine process, the duplex stream, third-party libraries) are read
    from an oracle and recorded in a trace. *)

From Stdlib Require Import Ascii String.
From stdpp Require Import gmap strings list fin_maps pretty.

Local Open Scope string_scope.
Local Open Scope list_scope.

(** ** Strings: the parts of Go's [strings] package the program uses *)

Module Strings.

(** The byte [0x22], the double quote that [strings.Trim] cuts. *)
Definition quote : ascii := Eval cbv in ascii_of_nat 34.

Definition isUpperByte (c : ascii) : bool :=
  ((65 <=? N_of_ascii c) && (N_of_ascii c <=? 90))%N.

Definition isLowerByte (c : ascii) : bool :=
  ((97 <=? N_of_ascii c) && (N_of_ascii c <=? 122))%N.

(** [c += 'a' - 'A'] on an upper-case byte. *)
Definition lowerByte (c : ascii) : ascii :=
  if isUpperByte c then ascii_of_N (N_of_ascii c + 32) else c.

Definition upperByte (c : ascii) : ascii :=
  if isLowerByte c then ascii_of_N (N_of_ascii c - 32) else c.

(** [c < utf8.RuneSelf] for every byte of the string. *)
Fixpoint isASCII (s : string) : bool :=
  match s with
  | EmptyString => true
  | String c r => (N_of_ascii c <? 128)%N && isASCII r
  end.

Fixpoint mapBytes (f : ascii → ascii) (s : string) : string :=
  match s with
  | EmptyString => EmptyString
  | String c r => String (f c) (mapBytes f r)
  end.

(** [strings.ToLower]: a string of ASCII bytes is lowered byte by byte;
    any other string goes through [strings.Map(unicode.ToLower, s)],
    which is left to the caller as [unicodeLower]. *)
Definition ToLower (unicodeLower : string → string) (s : string) : string :=
  if isASCII s then mapBytes lowerByte s else unicodeLower s.

Fixpoint trimLeftByte (s : string) (c : ascii) : string :=
  match s with
  | EmptyString => EmptyString
  | String a r => if Ascii.eqb a c then trimLeftByte r c else s
  end.

Fixpoint trimRightByte (s : string) (c : ascii) : string :=
  match s with
  | EmptyString => EmptyString
  | String a r =>
      match trimRightByte r c with
      | EmptyString => if Ascii.eqb a c then EmptyString else String a EmptyString
      | r' => String a r'
      end
  end.

(** [strings.Trim(s, cutset)] for a cutset of one ASCII byte. *)
Definition Trim (s : string) (c : ascii) : string :=
  trimLeftByte (trimRightByte s c) c.

(** [strings.Join([]string{a, b}, sep)]. *)
Definition Join2 (a b sep : string) : string := a +:+ sep +:+ b.

(** [s] spells the lower-case ASCII word [w] in some capitalization:
    byte by byte, [s] has the letter of [w] or its upper-case form. *)
Fixpoint isCapitalizationOf (s w : string) : bool :=
  match s, w with
  | EmptyString, EmptyString => true
  | String c s', String d w' =>
      (Ascii.eqb c d || Ascii.eqb c (upperByte d)) && isCapitalizationOf s' w'
  | _, _ => false
  end.

(** Every byte of [w] is a lower-case ASCII letter. *)
Fixpoint isLowerWord (w : string) : bool :=
  match w with
  | EmptyString => true
  | String d w' => isLowerByte d && isLowerWord w'
  end.

(** The first and the last byte of a string, when it has one. *)
Definition firstByte (s : string) : option ascii :=
  match s with
  | EmptyString => None
  | String c _ => Some c
  end.

Fixpoint lastByte (s : string) : option ascii :=
  match s with
  | EmptyString => None
  | String c r =>
      match lastByte r with
      | None => Some c
      | Some d => Some d
      end
  end.

(** [strings.IndexByte(s, c) >= 0]: the byte occurs in the string. *)
Fixpoint hasByte (s : string) (c : ascii) : bool :=
  match s with
  | EmptyString => false
  | String a r => Ascii.eqb a c || hasByte r c
  end.

End Strings.

(** ** Protocol types ([provisionersdk/proto]) *)

(** Modelled from the spec: the message and enumeration types of
    [provisionersdk/proto], of which provision.go has only the uses.  The
    spec's data model names the fields and, for a destination scheme, the
    two destinations and "any other scheme value"; an enumeration
    therefore carries a constructor for the numbers outside its declared
    names. *)

Inductive ParameterDestination_Scheme : Type :=
| ParameterDestination_ENVIRONMENT_VARIABLE
| ParameterDestination_PROVISIONER_VARIABLE
| ParameterDestination_other (n : Z).

Inductive WorkspaceTransition : Type :=
| WorkspaceTransition_START
| WorkspaceTransition_STOP
| WorkspaceTransition_DESTROY
| WorkspaceTransition_other (n : Z).

(** [WorkspaceTransition.String()]: the declared name, or the number in
    decimal. *)
Definition WorkspaceTransition_String (t : WorkspaceTransition) : string :=
  match t with
  | WorkspaceTransition_START => "START"
  | WorkspaceTransition_STOP => "STOP"
  | WorkspaceTransition_DESTROY => "DESTROY"
  | WorkspaceTransition_other n => pretty n
  end.

Definition WorkspaceTransition_eqb (a b : WorkspaceTransition) : bool :=
  match a, b with
  | WorkspaceTransition_START, WorkspaceTransition_START => true
  | WorkspaceTransition_STOP, WorkspaceTransition_STOP => true
  | WorkspaceTransition_DESTROY, WorkspaceTransition_DESTROY => true
  | WorkspaceTransition_other n, WorkspaceTransition_other m => Z.eqb n m
  | _, _ => false
  end.

Inductive LogLevel : Type :=
| LogLevel_TRACE
| LogLevel_DEBUG
| LogLevel_INFO
| LogLevel_WARN
| LogLevel_ERROR.

Record Log : Type := mkLog {
  Log_Level : LogLevel;
  Log_Output : string
}.

(** The [oneof] of an agent's credentials: exactly one variant. *)
Inductive Agent_Auth : Type :=
| Agent_Token (Token : string)
| Agent_InstanceId (InstanceId : string).

Record Agent : Type := mkAgent {
  Agent_Id : string;
  Agent_Env : gmap string string;
  Agent_StartupScript : string;
  Agent_Auth_ : Agent_Auth
}.

(** [Resource_Agent] is a pointer in the source: [None] is [nil]. *)
Record Resource : Type := mkResource {
  Resource_Name : string;
  Resource_Type : string;
  Resource_Agent : option Agent
}.

(** [Complete_Resources] is a slice of which [None] is the [nil] slice and
    [Some []] the empty slice made by [make]; [Complete_State] is a byte
    slice (empty when unset) and [Complete_Error] a string (empty when
    unset). *)
Record Provision_Complete : Type := mkComplete {
  Complete_State : list Byte.byte;
  Complete_Error : string;
  Complete_Resources : option (list Resource)
}.

Inductive Provision_Response : Type :=
| Provision_Response_Log (l : Log)
| Provision_Response_Complete (c : Provision_Complete).

Record ParameterValue : Type := mkParameterValue {
  ParameterValue_DestinationScheme : ParameterDestination_Scheme;
  ParameterValue_Name : string;
  ParameterValue_Value : string
}.

Record Provision_Metadata : Type := mkMetadata {
  Metadata_CoderUrl : string;
  Metadata_WorkspaceTransition : WorkspaceTransition;
  Metadata_WorkspaceName : string;
  Metadata_WorkspaceOwner : string
}.

(** The source reads [start.Metadata] without a [nil] test, so the start
    message is modelled with its metadata present. *)
Record Provision_Start : Type := mkStart {
  Start_Directory : string;
  Start_State : list Byte.byte;
  Start_Metadata : Provision_Metadata;
  Start_ParameterValues : list ParameterValue;
  Start_DryRun : bool
}.

(** A request is a start, a cancel, or carries neither. *)
Inductive Provision_Request : Type :=
| Provision_Request_Start (start : Provision_Start)
| Provision_Request_Cancel
| Provision_Request_none.

(** ** Errors

    An error is either one returned by a call outside the program, of
    which only the text [err.Error()] is known, or one built by
    [xerrors.Errorf] from a format and its arguments, or one wrapping
    another error through the verb [%w] at the end of the format. *)

Inductive fmtArg : Type :=
| ArgString (s : string)
| ArgScheme (d : ParameterDestination_Scheme).

Inductive error : Type :=
| Foreign (text : string)
| Errorf (format : string) (args : list fmtArg)
| Wrapf (format : string) (args : list fmtArg) (wrapped : error).

(** ** Engine artifacts ([terraform-json]) *)

(** A value held in a Go [interface{}]: the program distinguishes, by type
    assertion, a string and a [map[string]string] from everything else. *)
Inductive GoValue : Type :=
| GoString (s : string)
| GoMapStringString (m : gmap string string)
| GoOther.

Record Expression : Type := mkExpression {
  Expression_ConstantValue : GoValue
}.

Record ConfigResource : Type := mkConfigResource {
  ConfigResource_Address : string;
  ConfigResource_Type : string;
  ConfigResource_Name : string;
  ConfigResource_Expressions : gmap string Expression
}.

Record StateResource : Type := mkStateResource {
  StateResource_Type : string;
  StateResource_Name : string;
  StateResource_AttributeValues : gmap string GoValue
}.

(** The source reads [plan.Config.RootModule.Resources] and
    [plan.PlannedValues.RootModule.Resources] without [nil] tests; the
    plan is modelled by these two listings. *)
Record Plan : Type := mkPlan {
  Plan_Config_RootModule_Resources : list ConfigResource;
  Plan_PlannedValues_RootModule_Resources : list StateResource
}.

Record StateValues : Type := mkStateValues {
  StateValues_RootModule_Resources : list StateResource
}.

(** [State_Values] is the pointer the source tests against [nil]. *)
Record State : Type := mkState {
  State_Values : option StateValues
}.

(** The local struct [agentAttributes] of [parseTerraformApply]. *)
Record agentAttributes : Type := mkAgentAttributes {
  attrs_ID : string;
  attrs_Token : string;
  attrs_InstanceID : string;
  attrs_Env : gmap string string;
  attrs_StartupScript : string
}.

(** ** The analysed graph ([gographviz]) *)

Record Node : Type := mkNode {
  Node_Name : string;
  Node_Attrs : gmap string string
}.

Record Edge : Type := mkEdge {
  Edge_Src : string;
  Edge_Dst : string
}.

(** The fields of [gographviz.Graph] the extractor reads: the nodes in
    their slice order, the lookup table by node name, and the two
    adjacency tables of the edges. *)
Record Graph : Type := mkGraph {
  Graph_Nodes_Nodes : list Node;
  Graph_Nodes_Lookup : gmap string Node;
  Graph_Edges_SrcToDsts : gmap string (gmap string (list Edge));
  Graph_Edges_DstToSrcs : gmap string (gmap string (list Edge))
}.

(** ** Library functions

    The functions of other packages the program calls.  A failing call
    is [inl] of the text of its error.  [rangeKeys] is the order in which
    a [for ... range] statement visits the keys of a map: some
    enumeration of the keys, each once. *)
Class Externals : Type := {
  unicodeLower : string → string;
  filepath_Join : string → string → string;
  ast_Graph : Type;
  gographviz_ParseString : string → string + ast_Graph;
  gographviz_NewAnalysedGraph : ast_Graph → string + Graph;
  rangeKeys : gmap string (list Edge) → list string;
  rangeKeys_perm : ∀ m, rangeKeys m ≡ₚ (map_to_list m).*1;
  mapstructure_Decode : gmap string GoValue → string + agentAttributes;
  Version : Type;
  Version_GreaterThanOrEqual : Version → Version → bool;
  minimumTerraformVersion : Version;
  Version_String : Version → string
}.

(** ** The world outside the program

    [terraform] is the receiver of [Provision] (its logger is an effect,
    not data). *)
Record terraform : Type := mkTerraform {
  binaryPath : string;
  cachePath : string
}.

(** What the main goroutine of a session does outside the program, in
    order. *)
Inductive Event : Type :=
| EvRecv
| EvWriteFile (path : string) (data : list Byte.byte)
| EvNewTerraform (workingDir binary : string)
| EvVersion
| EvSetEnv (env : list (string * string))
| EvDebug (message : string)
| EvInit
| EvRun (binary : string) (args env : list string) (dir : string)
| EvReadFile (path : string)
| EvShowPlanFile (path : string)
| EvShowStateFile (path : string)
| EvGraph
| EvSend (response : Provision_Response).

(** A procedure that either leaves its function with the function's
    result [R] (a [return] statement) or goes on with a value [A]; both
    carry the events so far. *)
Definition Proc (R A : Type) : Type := ((R + A) * list Event)%type.

Global Instance Proc_ret {R} : MRet (Proc R) := λ A a, (inr a, []).

Global Instance Proc_bind {R} : MBind (Proc R) := λ A B f m,
  match m with
  | (inl r, t) => (inl r, t)
  | (inr a, t) => let '(x, t') := f a in (x, t ++ t')
  end.

Definition Return {R A} (r : R) : Proc R A := (inl r, []).

Definition emit {R} (ev : Event) : Proc R unit := (inr tt, [ev]).

(** A call outside the program whose failure makes the function return
    [onError err]. *)
Definition external {R A} (ev : Event) (outcome : string + A)
    (onError : error → R) : Proc R A :=
  emit ev ;;
  match outcome with
  | inl text => Return (onError (Foreign text))
  | inr a => mret a
  end.

Definition externalErr {R} (ev : Event) (outcome : option string)
    (onError : error → R) : Proc R unit :=
  emit ev ;;
  match outcome with
  | Some text => Return (onError (Foreign text))
  | None => mret tt
  end.

(** The result and the events of a function body, every path of which
    ends in a [return]. *)
Definition result {R} (p : Proc R Empty_set) : R * list Event :=
  match p with
  | (inl r, t) => (r, t)
  | (inr e, _) => match e with end
  end.

Definition call {R R'} (p : Proc R Empty_set) : Proc R' R :=
  let '(r, t) := result p in (inr r, t).

(** The responses the main goroutine hands to [stream.Send], the engine
    commands run and the number of graph requests of a trace.  The log
    responses of the two relay goroutines are not events of the trace:
    they are what [rawRelay] and [structuredRelay] return. *)
Definition sent (t : list Event) : list Provision_Response :=
  omap (λ ev, match ev with EvSend r => Some r | _ => None end) t.

Definition invoked (t : list Event) : list (list string * list string) :=
  omap (λ ev, match ev with EvRun _ args env _ => Some (args, env) | _ => None end) t.

Definition graphRequests (t : list Event) : nat :=
  length (omap (λ ev, match ev with EvGraph => Some tt | _ => None end) t).

(** The resources of a completion: the [nil] slice is the empty list. *)
Definition resourceList (c : Provision_Complete) : list Resource :=
  default [] (Complete_Resources c).

(** ** Log levels *)

Definition LogLevel_name (l : LogLevel) : string :=
  match l with
  | LogLevel_TRACE => "trace"
  | LogLevel_DEBUG => "debug"
  | LogLevel_INFO => "info"
  | LogLevel_WARN => "warn"
  | LogLevel_ERROR => "error"
  end.

Section Program.

Context `{Externals}.

(** The outcome of every call that leaves the program; a failure is the
    text of the error ([inl], or [Some] for a call that returns only an
    error).  [shutdown_Err] is [shutdown.Err()] as line 220 finds it: the
    background listener of lines 39-52 and the stream's own context
    decide it.  [AgentScriptEnv] lists the pairs of
    [provisionersdk.AgentScriptEnv()] in the order the [range] statement
    of line 115 visits them. *)
Record World : Type := mkWorld {
  stream_Recv : string + Provision_Request;
  os_WriteFile : string → list Byte.byte → option string;
  tfexec_NewTerraform : string → string → option string;
  terraform_Version : string + Version;
  terraform_SetEnv : option string;
  terraform_Init : option string;
  os_Environ : list string;
  AgentScriptEnv : list (string * string);
  cmd_Run : list string → list string → option string;
  shutdown_Err : option string;
  os_ReadFile : string → string + list Byte.byte;
  terraform_ShowPlanFile : string → string + Plan;
  terraform_ShowStateFile : string → string + State;
  terraform_Graph : string + string;
  stream_Send : Provision_Response → option string
}.

(** The [switch] compares the lowered string with the five cases in
    order; the [default] case returns the error. *)
Definition convertTerraformLogLevel (logLevel : string) : error + LogLevel :=
  let lowered := Strings.ToLower unicodeLower logLevel in
  if String.eqb lowered "trace" then inr LogLevel_TRACE
  else if String.eqb lowered "debug" then inr LogLevel_DEBUG
  else if String.eqb lowered "info" then inr LogLevel_INFO
  else if String.eqb lowered "warn" then inr LogLevel_WARN
  else if String.eqb lowered "error" then inr LogLevel_ERROR
  else inl (Errorf "invalid log level %q" [ArgString logLevel]).

(** *** The structured relay (the goroutine of lines 134-175)

    One record of the engine's structured log. *)
Record terraformProvisionLogDiagnostic : Type := mkDiagnostic {
  Diagnostic_Severity : string;
  Diagnostic_Summary : string;
  Diagnostic_Detail : string
}.

Record terraformProvisionLog : Type := mkProvisionLog {
  ProvisionLog_Level : string;
  ProvisionLog_Message : string;
  ProvisionLog_Diagnostic : option terraformProvisionLogDiagnostic
}.

Definition logResponse (level : LogLevel) (output : string) : Provision_Response :=
  Provision_Response_Log {| Log_Level := level; Log_Output := output |}.

(** The loop over [decoder.Decode]: the argument lists the outcomes of
    the successive calls, [inl] for a failed one (after the last
    outcome the decoder fails with the end of the stream).  The result
    lists the responses handed to [stream.Send], whose own outcome the
    relay discards. *)
Fixpoint structuredRelay (decoded : list (string + terraformProvisionLog))
  : list Provision_Response :=
  match decoded with
  | [] => []
  | inl _ :: _ => []
  | inr log :: rest =>
      match convertTerraformLogLevel (ProvisionLog_Level log) with
      | inl _ => structuredRelay rest
      | inr logLevel =>
          logResponse logLevel (ProvisionLog_Message log) ::
          match ProvisionLog_Diagnostic log with
          | None => structuredRelay rest
          | Some diagnostic =>
              match convertTerraformLogLevel (Diagnostic_Severity diagnostic) with
              | inl _ => structuredRelay rest
              | inr logLevel =>
                  logResponse logLevel (Diagnostic_Detail diagnostic) ::
                  structuredRelay rest
              end
          end
      end
  end.


(** The raw relay (the goroutine of lines 77-89): every scanned line is
    sent as a debug log. *)
Definition rawRelay (lines : list string) : list Provision_Response :=
  map (logResponse LogLevel_DEBUG) lines.

(** *** findDirectDependencies *)

Definition trimLabel (label : string) : string :=
  Strings.Trim label Strings.quote.

(** The inner loop [for destination := range edges] with its two
    [continue]s; [edges] is [None] when the adjacency table has no entry
    for the node (a [nil] map, over which the loop does not iterate). *)
Definition appendLabels (graph : Graph) (dependencies : list string)
    (edges : option (gmap string (list Edge))) : list string :=
  match edges with
  | None => dependencies
  | Some edges =>
      foldl (λ dependencies destination,
               match Graph_Nodes_Lookup graph !! destination with
               | None => dependencies
               | Some dependencyNode =>
                   match Node_Attrs dependencyNode !! "label" with
                   | None => dependencies
                   | Some label => dependencies ++ [trimLabel label]
                   end
               end)
            dependencies (rangeKeys edges)
  end.

(** The body of the loop over [graph.Nodes.Nodes]. *)
Definition directStep (graph : Graph) (direct : gmap string (list string))
    (node : Node) : gmap string (list string) :=
  match Node_Attrs node !! "label" with
  | None => direct
  | Some label =>
      let label := trimLabel label in
      let dependencies :=
        foldl (appendLabels graph) []
          [Graph_Edges_SrcToDsts graph !! Node_Name node;
           Graph_Edges_DstToSrcs graph !! Node_Name node] in
      <[label := dependencies]> direct
  end.

Definition findDirectDependencies (rawGraph : string)
  : error + gmap string (list string) :=
  match gographviz_ParseString rawGraph with
  | inl err => inl (Wrapf "parse graph: %w" [] (Foreign err))
  | inr parsedGraph =>
      match gographviz_NewAnalysedGraph parsedGraph with
      | inl err => inl (Wrapf "analyze graph: %w" [] (Foreign err))
      | inr graph => inr (foldl (directStep graph) ∅ (Graph_Nodes_Nodes graph))
      end
  end.

(** The resource identifier of a node: its [label] attribute with the
    surrounding quotes cut, when it carries one. *)
Definition labelOf (node : Node) : option string :=
  trimLabel <$> Node_Attrs node !! "label".

(** The names a node is joined to in one adjacency table. *)
Definition adjacentNames (edges : option (gmap string (list Edge)))
  : list string :=
  match edges with
  | Some edges => (map_to_list edges).*1
  | None => []
  end.

(** The identifiers of the labelled nodes one edge away from [node]: its
    successors, then its predecessors, an unknown or unlabelled
    neighbour left out. *)
Definition neighbourLabels (graph : Graph) (node : Node) : list string :=
  omap (λ name, Graph_Nodes_Lookup graph !! name ≫= labelOf)
    (adjacentNames (Graph_Edges_SrcToDsts graph !! Node_Name node) ++
     adjacentNames (Graph_Edges_DstToSrcs graph !! Node_Name node)).

(** *** The correlator *)

(** [strings.Join([]string{resource.Type, resource.Name}, ".")]. *)
Definition resourceKey (resource : StateResource) : string :=
  Strings.Join2 (StateResource_Type resource) (StateResource_Name resource) ".".

(** The loop [for _, dep := range resourceNode] (lines 320-327 and
    410-417): each lookup overwrites [agent], with [nil] when the
    dependency is not an agent, and a hit leaves the loop. *)
Fixpoint associate (agents : gmap string Agent) (resourceNode : list string)
    (agent : option Agent) : option Agent :=
  match resourceNode with
  | [] => agent
  | dep :: rest =>
      match agents !! dep with
      | Some found => Some found
      | None => associate agents rest None
      end
  end.

(** The body of the loop over the flat listing (lines 310-334 and
    400-424), the same statements in both functions. *)
Definition correlateStep (agents : gmap string Agent)
    (resourceDependencies : gmap string (list string))
    (resources : list Resource) (resource : StateResource) : list Resource :=
  if String.eqb (StateResource_Type resource) "coder_agent" then resources
  else
    match resourceDependencies !! resourceKey resource with
    | None => resources
    | Some resourceNode =>
        let agent := associate agents resourceNode None in
        resources ++ [ {| Resource_Name := StateResource_Name resource;
                          Resource_Type := StateResource_Type resource;
                          Resource_Agent := agent |} ]
    end.

Definition correlate (agents : gmap string Agent)
    (resourceDependencies : gmap string (list string))
    (listing : list StateResource) : list Resource :=
  foldl (correlateStep agents resourceDependencies) [] listing.

(** The first dependency, in list order, that is a key of the agent
    table: [agent] is its entry, or [None] when no dependency is a
    key. *)
Definition firstMatch (agents : gmap string Agent)
    (resourceNode : list string) (agent : option Agent) : Prop :=
  match agent with
  | Some found =>
      ∃ pre dep post,
        resourceNode = pre ++ dep :: post ∧
        Forall (λ d, agents !! d = None) pre ∧
        agents !! dep = Some found
  | None => Forall (λ d, agents !! d = None) resourceNode
  end.

(** *** The agent tables *)

(** Lines 285-306: the agent of one [coder_agent] resource of the plan's
    configuration. *)
Definition planAgent (resource : ConfigResource) : Agent :=
  let agent := {| Agent_Id := ""; Agent_Env := ∅; Agent_StartupScript := "";
                  Agent_Auth_ := Agent_Token "" |} in
  let agent :=
    match ConfigResource_Expressions resource !! "env" with
    | Some envRaw =>
        match Expression_ConstantValue envRaw with
        | GoMapStringString env =>
            {| Agent_Id := Agent_Id agent; Agent_Env := env;
               Agent_StartupScript := Agent_StartupScript agent;
               Agent_Auth_ := Agent_Auth_ agent |}
        | _ => agent
        end
    | None => agent
    end in
  let agent :=
    match ConfigResource_Expressions resource !! "startup_script" with
    | Some startupScriptRaw =>
        match Expression_ConstantValue startupScriptRaw with
        | GoString startupScript =>
            {| Agent_Id := Agent_Id agent; Agent_Env := Agent_Env agent;
               Agent_StartupScript := startupScript;
               Agent_Auth_ := Agent_Auth_ agent |}
        | _ => agent
        end
    | None => agent
    end in
  match ConfigResource_Expressions resource !! "instance_id" with
  | Some _ =>
      {| Agent_Id := Agent_Id agent; Agent_Env := Agent_Env agent;
         Agent_StartupScript := Agent_StartupScript agent;
         Agent_Auth_ := Agent_InstanceId "" |}
  | None => agent
  end.

(** Lines 281-309. *)
Definition planAgents (resources : list ConfigResource) : gmap string Agent :=
  foldl (λ agents resource,
           if negb (String.eqb (ConfigResource_Type resource) "coder_agent")
           then agents
           else <[ConfigResource_Address resource := planAgent resource]> agents)
        ∅ resources.

(** Lines 383-395: the agent made from the decoded attributes. *)
Definition applyAgent (attrs : agentAttributes) : Agent :=
  let agent := {| Agent_Id := attrs_ID attrs; Agent_Env := attrs_Env attrs;
                  Agent_StartupScript := attrs_StartupScript attrs;
                  Agent_Auth_ := Agent_Token (attrs_Token attrs) |} in
  if negb (String.eqb (attrs_InstanceID attrs) "")
  then {| Agent_Id := Agent_Id agent; Agent_Env := Agent_Env agent;
          Agent_StartupScript := Agent_StartupScript agent;
          Agent_Auth_ := Agent_InstanceId (attrs_InstanceID attrs) |}
  else agent.

(** Lines 374-398: a failed decode leaves the function with its error. *)
Fixpoint applyAgents (resources : list StateResource) (agents : gmap string Agent)
  : error + gmap string Agent :=
  match resources with
  | [] => inr agents
  | resource :: rest =>
      if negb (String.eqb (StateResource_Type resource) "coder_agent")
      then applyAgents rest agents
      else
        match mapstructure_Decode (StateResource_AttributeValues resource) with
        | inl err => inl (Wrapf "decode agent attributes: %w" [] (Foreign err))
        | inr attrs =>
            applyAgents rest (<[resourceKey resource := applyAgent attrs]> agents)
        end
  end.


(** *** parseTerraformPlan and parseTerraformApply *)

Definition completeResponse (state : list Byte.byte) (err : string)
    (resources : option (list Resource)) : Provision_Response :=
  Provision_Response_Complete
    {| Complete_State := state; Complete_Error := err;
       Complete_Resources := resources |}.

Definition parseTerraformPlan (w : World) (planfilePath : string)
  : Proc (error + Provision_Response) Empty_set :=
  plan ← external (EvShowPlanFile planfilePath)
           (terraform_ShowPlanFile w planfilePath)
           (λ err, inl (Wrapf "show terraform plan file: %w" [] err));
  rawGraph ← external EvGraph (terraform_Graph w)
               (λ err, inl (Wrapf "graph: %w" [] err));
  match findDirectDependencies rawGraph with
  | inl err => Return (inl (Wrapf "find dependencies: %w" [] err))
  | inr resourceDependencies =>
      let agents := planAgents (Plan_Config_RootModule_Resources plan) in
      let resources :=
        correlate agents resourceDependencies
          (Plan_PlannedValues_RootModule_Resources plan) in
      Return (inr (completeResponse [] "" (Some resources)))
  end.

Definition parseTerraformApply (w : World) (statefilePath : string)
  : Proc (error + Provision_Response) Empty_set :=
  statefileContent ← external (EvReadFile statefilePath)
                       (os_ReadFile w statefilePath)
                       (λ err, inl (Wrapf "read file %q: %w"
                                      [ArgString statefilePath] err));
  state ← external (EvShowStateFile statefilePath)
            (terraform_ShowStateFile w statefilePath)
            (λ err, inl (Wrapf "show state file %q: %w"
                           [ArgString statefilePath] err));
  resources ←
    match State_Values state with
    | None => mret []
    | Some values =>
        rawGraph ← external EvGraph (terraform_Graph w)
                     (λ err, inl (Wrapf "graph: %w" [] err));
        match findDirectDependencies rawGraph with
        | inl err => Return (inl (Wrapf "find dependencies: %w" [] err))
        | inr resourceDependencies =>
            match applyAgents (StateValues_RootModule_Resources values) ∅ with
            | inl err => Return (inl err)
            | inr agents =>
                mret (correlate agents resourceDependencies
                        (StateValues_RootModule_Resources values))
            end
        end
    end;
  Return (inr (completeResponse statefileContent "" (Some resources))).

(** *** Provision *)

(** [fmt.Sprintf("%s=%s", name, value)]. *)
Definition assignment (name value : string) : string :=
  name +:+ "=" +:+ value.

(** Lines 108-117: the environment of the child before the parameters. *)
Definition baseEnv (w : World) (start : Provision_Start) : list string :=
  let env := os_Environ w in
  let env :=
    env ++
    ["CODER_URL=" +:+ Metadata_CoderUrl (Start_Metadata start);
     "CODER_WORKSPACE_TRANSITION=" +:+
       Strings.ToLower unicodeLower
         (WorkspaceTransition_String
            (Metadata_WorkspaceTransition (Start_Metadata start)));
     "CODER_WORKSPACE_NAME=" +:+ Metadata_WorkspaceName (Start_Metadata start);
     "CODER_WORKSPACE_OWNER=" +:+ Metadata_WorkspaceOwner (Start_Metadata start)] in
  foldl (λ env '(key, value), env ++ [key +:+ "=" +:+ value]) env
        (AgentScriptEnv w).

(** Lines 118-128: the loop over the parameters, which appends to [env]
    or to [vars] and returns from [Provision] at an unsupported
    destination. *)
Fixpoint routeParameters (params : list ParameterValue) (env vars : list string)
  : error + (list string * list string) :=
  match params with
  | [] => inr (env, vars)
  | param :: rest =>
      match ParameterValue_DestinationScheme param with
      | ParameterDestination_ENVIRONMENT_VARIABLE =>
          routeParameters rest
            (env ++ [assignment (ParameterValue_Name param)
                                (ParameterValue_Value param)]) vars
      | ParameterDestination_PROVISIONER_VARIABLE =>
          routeParameters rest env
            (vars ++ [assignment (ParameterValue_Name param)
                                 (ParameterValue_Value param)])
      | ParameterDestination_other _ =>
          inl (Errorf "unsupported parameter type %q for %q"
                 [ArgScheme (ParameterValue_DestinationScheme param);
                  ArgString (ParameterValue_Name param)])
      end
  end.

(** Lines 177-203: the arguments of the engine command. *)
Definition engineArgs (start : Provision_Start) (planfilePath : string)
    (vars : list string) : list string :=
  let args :=
    if Start_DryRun start
    then ["plan"; "-no-color"; "-input=false"; "-json"; "-refresh=true";
          "-out=" +:+ planfilePath]
    else ["apply"; "-no-color"; "-auto-approve"; "-input=false"; "-json";
          "-refresh=true"] in
  let args :=
    if WorkspaceTransition_eqb
         (Metadata_WorkspaceTransition (Start_Metadata start))
         WorkspaceTransition_DESTROY
    then args ++ ["-destroy"]
    else args in
  foldl (λ args variable, args ++ ["-var"; variable]) args vars.

(** [return stream.Send(response)]. *)
Definition returnSend {A} (w : World) (response : Provision_Response)
  : Proc (option error) A :=
  emit (EvSend response) ;;
  Return (Foreign <$> stream_Send w response).

(** Lines 218-259 of [Provision]: what follows [cmd.Run()], whose
    outcome is [runErr]. *)
Definition afterRun (w : World) (start : Provision_Start)
    (statefilePath planfilePath : string) (runErr : option string)
  : Proc (option error) Empty_set :=
  match runErr with
  | Some errText =>
      if Start_DryRun start
      then
        match shutdown_Err w with
        | Some _ => returnSend w (completeResponse [] errText None)
        | None => Return (Some (Wrapf "plan terraform: %w" []
                                  (Foreign errText)))
        end
      else
        statefileContent ←
          external (EvReadFile statefilePath)
            (os_ReadFile w statefilePath)
            (λ err, Some (Wrapf "read file %q: %w"
                            [ArgString statefilePath] err));
        returnSend w (completeResponse statefileContent errText None)
  | None =>
      parsed ←
        (if Start_DryRun start
         then call (parseTerraformPlan w planfilePath)
         else call (parseTerraformApply w statefilePath));
      match parsed with
      | inl err => Return (Some err)
      | inr resp => returnSend w resp
      end
  end.

(** Lines 24-217 of [Provision], which ends in [afterRun]. *)
Definition Provision (t : terraform) (w : World)
  : Proc (option error) Empty_set :=
  request ← external EvRecv (stream_Recv w) Some;
  match request with
  | Provision_Request_Cancel => Return None
  | Provision_Request_none => Return None
  | Provision_Request_Start start =>
      let statefilePath :=
        filepath_Join (Start_Directory start) "terraform.tfstate" in
      (if (0 <? length (Start_State start))%nat
       then externalErr (EvWriteFile statefilePath (Start_State start))
              (os_WriteFile w statefilePath (Start_State start))
              (λ err, Some (Wrapf "write statefile %q: %w"
                              [ArgString statefilePath] err))
       else mret tt) ;;
      externalErr (EvNewTerraform (Start_Directory start) (binaryPath t))
        (tfexec_NewTerraform w (Start_Directory start) (binaryPath t))
        (λ err, Some (Wrapf "create new terraform executor: %w" [] err)) ;;
      version ← external EvVersion (terraform_Version w)
                  (λ err, Some (Wrapf "get terraform version: %w" [] err));
      (if negb (Version_GreaterThanOrEqual version minimumTerraformVersion)
       then Return (Some (Errorf "terraform version %q is too old. required >= %q"
                            [ArgString (Version_String version);
                             ArgString (Version_String minimumTerraformVersion)]))
       else mret tt) ;;
      (if negb (String.eqb (cachePath t) "")
       then externalErr (EvSetEnv [("TF_PLUGIN_CACHE_DIR", cachePath t)])
              (terraform_SetEnv w)
              (λ err, Some (Wrapf "set terraform plugin cache dir: %w" [] err))
       else mret tt) ;;
      emit (EvDebug "running initialization") ;;
      externalErr EvInit (terraform_Init w)
        (λ err, Some (Wrapf "initialize terraform: %w" [] err)) ;;
      emit (EvDebug "ran initialization") ;;
      match routeParameters (Start_ParameterValues start) (baseEnv w start) [] with
      | inl err => Return (Some err)
      | inr (env, vars) =>
          let planfilePath :=
            filepath_Join (Start_Directory start) "terraform.tfplan" in
          let args := engineArgs start planfilePath vars in
          emit (EvRun (binaryPath t) args env (Start_Directory start)) ;;
          afterRun w start statefilePath planfilePath (cmd_Run w args env)
      end
  end.

(** *** The session up to the engine command *)

(** The start request has arrived and every step of lines 54-106 has
    succeeded: the earlier state, when there is one, was written, the
    executor was made, the engine's version was read and is supported,
    the plugin cache, when configured, was set, and the initialization
    ran. *)
Definition prepared (t : terraform) (w : World) (start : Provision_Start) : Prop :=
  stream_Recv w = inr (Provision_Request_Start start) ∧
  ((0 <? length (Start_State start))%nat = true →
     os_WriteFile w (filepath_Join (Start_Directory start) "terraform.tfstate")
       (Start_State start) = None) ∧
  tfexec_NewTerraform w (Start_Directory start) (binaryPath t) = None ∧
  (∃ version,
     terraform_Version w = inr version ∧
     Version_GreaterThanOrEqual version minimumTerraformVersion = true) ∧
  (negb (String.eqb (cachePath t) "") = true → terraform_SetEnv w = None) ∧
  terraform_Init w = None.

Definition isEnvironment (param : ParameterValue) : bool :=
  match ParameterValue_DestinationScheme param with
  | ParameterDestination_ENVIRONMENT_VARIABLE => true
  | _ => false
  end.

Definition isProvisioner (param : ParameterValue) : bool :=
  match ParameterValue_DestinationScheme param with
  | ParameterDestination_PROVISIONER_VARIABLE => true
  | _ => false
  end.

Definition isSupported (param : ParameterValue) : bool :=
  isEnvironment param || isProvisioner param.

Definition assignmentOf (param : ParameterValue) : string :=
  assignment (ParameterValue_Name param) (ParameterValue_Value param).

(** *** The cancel listener (the goroutine of lines 39-52)

    The loop over [stream.Recv] after the start request: [later] lists
    the outcomes of the successive calls, [inl] for a failed one.  The
    result tells whether the loop calls [shutdownFunc]: a failed receive
    ends the loop without the call, a request that is not a cancel is
    skipped, a cancel makes the call and ends the loop.  When the
    outcomes run out the goroutine is still waiting in [Recv] and has
    not made the call. *)
Fixpoint cancelListener (later : list (string + Provision_Request)) : bool :=
  match later with
  | [] => false
  | inl _ :: _ => false
  | inr Provision_Request_Cancel :: _ => true
  | inr _ :: rest => cancelListener rest
  end.

(** *** Notions used by the properties of the whole file *)

(** The events of lines 28-106 in a session whose steps all succeed: the
    receive, the write of the earlier state when there is one, the
    executor, the version, the plugin cache when one is configured, and
    the initialization between its two debug lines. *)
Definition preparation (t : terraform) (start : Provision_Start) : list Event :=
  [EvRecv] ++
  (if (0 <? length (Start_State start))%nat
   then [EvWriteFile
           (filepath_Join (Start_Directory start) "terraform.tfstate")
           (Start_State start)]
   else []) ++
  [EvNewTerraform (Start_Directory start) (binaryPath t); EvVersion] ++
  (if negb (String.eqb (cachePath t) "")
   then [EvSetEnv [("TF_PLUGIN_CACHE_DIR", cachePath t)]]
   else []) ++
  [EvDebug "running initialization"; EvInit; EvDebug "ran initialization"].

(** The completions among the responses of a trace.  Completions are
    sent by the main goroutine only (lines 221, 238 and 259); the relay
    goroutines send logs. *)
Definition completions (t : list Event) : list Provision_Complete :=
  omap (λ ev, match ev with
              | EvSend (Provision_Response_Complete complete) => Some complete
              | _ => None
              end) t.

(** The event reads the state file, from the disk or through the
    engine. *)
Definition readsState (ev : Event) : bool :=
  match ev with
  | EvReadFile _ | EvShowStateFile _ => true
  | _ => false
  end.

(** The resource passes the two [continue]s of the correlator's loop: it
    is not an agent and its key is in the dependency map. *)
Definition reported (resourceDependencies : gmap string (list string))
    (resource : StateResource) : bool :=
  negb (String.eqb (StateResource_Type resource) "coder_agent") &&
  match resourceDependencies !! resourceKey resource with
  | Some _ => true
  | None => false
  end.

(** The body of the loop of lines 281-309, of which [planAgents] is the
    fold. *)
Definition planStep (agents : gmap string Agent) (resource : ConfigResource)
  : gmap string Agent :=
  if negb (String.eqb (ConfigResource_Type resource) "coder_agent")
  then agents
  else <[ConfigResource_Address resource := planAgent resource]> agents.

(** The string neither begins nor ends with a double quote. *)
Definition unquoted (s : string) : Prop :=
  Strings.firstByte s ≠ Some Strings.quote ∧
  Strings.lastByte s ≠ Some Strings.quote.

(** Every node of the lookup table is a node of the node list. *)
Definition lookupListed (graph : Graph) : Prop :=
  ∀ name node, Graph_Nodes_Lookup graph !! name = Some node →
               node ∈ Graph_Nodes_Nodes graph.

End Program.

(** ** Concrete instances

    One implementation of the library functions and a few concrete
    inputs, on which the program is run in the examples below. *)

Module Sample.

(** A decoder in the manner of [mapstructure.Decode] on the struct
    [agentAttributes]: an absent key leaves the field empty, a string
    fills a string field, anything else is refused. *)
Definition stringField (m : gmap string GoValue) (key : string)
  : string + string :=
  match m !! key with
  | None => inr ""
  | Some (GoString s) => inr s
  | Some _ => inl ("'" +:+ key +:+ "' expected type 'string'")
  end.

Definition mapField (m : gmap string GoValue) (key : string)
  : string + gmap string string :=
  match m !! key with
  | None => inr ∅
  | Some (GoMapStringString e) => inr e
  | Some _ => inl ("'" +:+ key +:+ "' expected a map")
  end.

Definition decode (m : gmap string GoValue) : string + agentAttributes :=
  match stringField m "id", stringField m "token",
        stringField m "instance_id", mapField m "env",
        stringField m "startup_script" with
  | inr id, inr token, inr instanceID, inr env, inr startupScript =>
      inr {| attrs_ID := id; attrs_Token := token;
             attrs_InstanceID := instanceID; attrs_Env := env;
             attrs_StartupScript := startupScript |}
  | inl e, _, _, _, _ | _, inl e, _, _, _ | _, _, inl e, _, _
  | _, _, _, inl e, _ | _, _, _, _, inl e => inl e
  end.

(** Two nodes that carry the same label, the first of them with an edge
    to a third node. *)
Definition labelled (name label : string) : Node :=
  {| Node_Name := name;
     Node_Attrs := {[ "label" := String Strings.quote
                                   (label +:+ String Strings.quote "") ]} |}.

Definition nodeA : Node := labelled "a" "x".
Definition nodeB : Node := labelled "b" "x".
Definition nodeC : Node := labelled "c" "y".

Definition twins : Graph :=
  {| Graph_Nodes_Nodes := [nodeA; nodeB; nodeC];
     Graph_Nodes_Lookup := {[ "a" := nodeA; "b" := nodeB; "c" := nodeC ]};
     Graph_Edges_SrcToDsts :=
       {[ "a" := {[ "c" := [ {| Edge_Src := "a"; Edge_Dst := "c" |} ] ]} ]};
     Graph_Edges_DstToSrcs :=
       {[ "c" := {[ "a" := [ {| Edge_Src := "a"; Edge_Dst := "c" |} ] ]} ]} |}.

Definition quoted (s : string) : string :=
  String Strings.quote (s +:+ String Strings.quote "").

Definition twinsText : string :=
  "digraph { a [label=" +:+ quoted "x" +:+ "]; b [label=" +:+ quoted "x" +:+
  "]; c [label=" +:+ quoted "y" +:+ "]; a -> c }".

(** The parser of the sample knows one graph text. *)
Definition parse (rawGraph : string) : string + Graph :=
  if String.eqb rawGraph twinsText then inr twins
  else inl "syntax error".

(** What the extractor returns for [twins]. *)
Definition twinsDirect : gmap string (list string) :=
  {[ "x" := []; "y" := ["x"] ]}.




Definition externals : Externals :=
  {| unicodeLower := λ s, s;
     filepath_Join := λ dir file, dir +:+ "/" +:+ file;
     ast_Graph := Graph;
     gographviz_ParseString := parse;
     gographviz_NewAnalysedGraph := inr;
     rangeKeys := λ m, (map_to_list m).*1;
     rangeKeys_perm := λ m, reflexivity _;
     mapstructure_Decode := decode;
     Version := nat;
     Version_GreaterThanOrEqual := λ a b, (b <=? a)%nat;
     minimumTerraformVersion := 1%nat;
     Version_String := pretty |}.

(** The scenario of the correlator: one agent, one resource that
    depends on a provider node and on the agent, one resource unknown to
    the graph. *)
Definition devAgent : Agent :=
  {| Agent_Id := "a1"; Agent_Env := ∅; Agent_StartupScript := "";
     Agent_Auth_ := Agent_Token "secret" |}.

Definition agentTable : gmap string Agent := {[ "coder_agent.dev" := devAgent ]}.

Definition dependencyMap : gmap string (list string) :=
  {[ "null_resource.web" := ["provider.null"; "coder_agent.dev"] ]}.

Definition web : StateResource :=
  {| StateResource_Type := "null_resource"; StateResource_Name := "web";
     StateResource_AttributeValues := ∅ |}.

Definition orphan : StateResource :=
  {| StateResource_Type := "null_resource"; StateResource_Name := "orphan";
     StateResource_AttributeValues := ∅ |}.

(** Agent resources of a plan and of a state. *)
Definition plannedAgent : ConfigResource :=
  {| ConfigResource_Address := "coder_agent.dev";
     ConfigResource_Type := "coder_agent"; ConfigResource_Name := "dev";
     ConfigResource_Expressions :=
       {[ "instance_id" := {| Expression_ConstantValue := GoOther |} ]} |}.

Definition appliedAgent : StateResource :=
  {| StateResource_Type := "coder_agent"; StateResource_Name := "dev";
     StateResource_AttributeValues :=
       {[ "id" := GoString "a1"; "token" := GoString "secret";
          "instance_id" := GoString "i-0abc" ]} |}.

Definition appliedAgentEntry : Agent :=
  {| Agent_Id := "a1"; Agent_Env := ∅; Agent_StartupScript := "";
     Agent_Auth_ := Agent_InstanceId "i-0abc" |}.



(** A session: a workspace that is being destroyed, with one parameter
    for the environment and one for the engine. *)
Definition start (dryRun : bool) : Provision_Start :=
  {| Start_Directory := "/ws";
     Start_State := [];
     Start_Metadata :=
       {| Metadata_CoderUrl := "https://coder.example";
          Metadata_WorkspaceTransition := WorkspaceTransition_DESTROY;
          Metadata_WorkspaceName := "dev";
          Metadata_WorkspaceOwner := "kyle" |};
     Start_ParameterValues :=
       [ {| ParameterValue_DestinationScheme :=
              ParameterDestination_ENVIRONMENT_VARIABLE;
            ParameterValue_Name := "REGION"; ParameterValue_Value := "eu" |};
         {| ParameterValue_DestinationScheme :=
              ParameterDestination_PROVISIONER_VARIABLE;
            ParameterValue_Name := "size"; ParameterValue_Value := "2" |} ];
     Start_DryRun := dryRun |}.

Definition engine : terraform :=
  {| binaryPath := "/usr/bin/terraform"; cachePath := "" |}.

(** The world of a session whose earlier steps all succeed; the outcome
    of the engine command, the shutdown signal, the state file and the
    parsed state are left open. *)
Definition world (request : Provision_Start) (run shutdown : option string)
    (file : string + list Byte.byte) (state : State) : @World externals :=
  {| stream_Recv := inr (Provision_Request_Start request);
     os_WriteFile := λ _ _, None;
     tfexec_NewTerraform := λ _ _, None;
     terraform_Version := inr (1%nat : @Version externals);
     terraform_SetEnv := None;
     terraform_Init := None;
     os_Environ := ["PATH=/bin"];
     AgentScriptEnv := [];
     cmd_Run := λ _ _, run;
     shutdown_Err := shutdown;
     os_ReadFile := λ _, file;
     terraform_ShowPlanFile := λ _, inl "no plan";
     terraform_ShowStateFile := λ _, inr state;
     terraform_Graph := inl "no graph";
     stream_Send := λ _, None |}.

Definition stateBytes : list Byte.byte := [Byte.x7b; Byte.x7d].

Definition noValues : State := {| State_Values := None |}.

(** A dry run interrupted by a cancel, a real run whose command fails
    and leaves a state file, and a real run that succeeds on a state
    without values. *)
Definition cancelledPlan : @World externals :=
  world (start true) (Some "signal: interrupt") (Some "context canceled")
    (inl "no such file") noValues.

Definition failedApply : @World externals :=
  world (start false) (Some "exit status 1") None (inr stateBytes) noValues.

Definition emptyApply : @World externals :=
  world (start false) None None (inr stateBytes) noValues.

Definition sessionEnv : list string :=
  ["PATH=/bin"; "CODER_URL=https://coder.example";
   "CODER_WORKSPACE_TRANSITION=destroy"; "CODER_WORKSPACE_NAME=dev";
   "CODER_WORKSPACE_OWNER=kyle"; "REGION=eu"].

Definition sessionVars : list string := ["size=2"].

Definition badStart : Provision_Start :=
  {| Start_Directory := "/ws";
     Start_State := [];
     Start_Metadata := Start_Metadata (start false);
     Start_ParameterValues :=
       [ {| ParameterValue_DestinationScheme := ParameterDestination_other 7;
            ParameterValue_Name := "odd"; ParameterValue_Value := "1" |} ];
     Start_DryRun := false |}.

(** The sample world with an engine of version 0, below the minimum. *)
Definition outdated : @World externals :=
  {| stream_Recv := inr (Provision_Request_Start (start false));
     os_WriteFile := λ _ _, None;
     tfexec_NewTerraform := λ _ _, None;
     terraform_Version := inr (0%nat : @Version externals);
     terraform_SetEnv := None;
     terraform_Init := None;
     os_Environ := ["PATH=/bin"];
     AgentScriptEnv := [];
     cmd_Run := λ _ _, None;
     shutdown_Err := None;
     os_ReadFile := λ _, inr stateBytes;
     terraform_ShowPlanFile := λ _, inl "no plan";
     terraform_ShowStateFile := λ _, inr noValues;
     terraform_Graph := inl "no graph";
     stream_Send := λ _, None |}.

End Sample.

(** ** Properties *)

(** *** Log levels *)

Section LogLevelProperties.

Context `{Externals}.

Lemma lowerByte_letter (c d : ascii) :
  Strings.isLowerByte d = true →
  (Ascii.eqb c d || Ascii.eqb c (Strings.upperByte d)) = true →
  (N_of_ascii c <? 128)%N = true ∧ Strings.lowerByte c = d.
Proof.
  intros Hd Hc.
  assert (c = d ∨ c = Strings.upperByte d) as [-> | ->].
  { apply orb_true_iff in Hc as [Hc | Hc]; apply Ascii.eqb_eq in Hc; auto. }
  - revert Hd. destruct d as [[] [] [] [] [] [] [] []]; vm_compute; auto; discriminate.
  - revert Hd. destruct d as [[] [] [] [] [] [] [] []]; vm_compute; auto; discriminate.
Qed.

Lemma ToLower_capitalization (s w : string) :
  Strings.isLowerWord w = true →
  Strings.isCapitalizationOf s w = true →
  Strings.ToLower unicodeLower s = w.
Proof.
  intros Hw Hs.
  assert (Strings.isASCII s = true ∧ Strings.mapBytes Strings.lowerByte s = w) as [Ha Hm].
  { revert w Hw Hs. induction s as [|c s IH]; intros [|d w] Hw Hs; try discriminate; [done|].
    simpl in *. apply andb_true_iff in Hw as [Hd Hw]. apply andb_true_iff in Hs as [Hc Hs].
    destruct (lowerByte_letter c d Hd Hc) as [Hlt Hlow].
    destruct (IH w Hw Hs) as [Ha Hm]. rewrite Hlt, Ha, Hlow, Hm. done. }
  unfold Strings.ToLower. by rewrite Ha.
Qed.

Lemma convertTerraformLogLevel_spec (s : string) (l : LogLevel) :
  convertTerraformLogLevel s = inr l ↔
  Strings.ToLower unicodeLower s = LogLevel_name l.
Proof.
  unfold convertTerraformLogLevel. cbv zeta.
  generalize (Strings.ToLower unicodeLower s) as lowered. intros lowered.
  destruct (String.eqb_spec lowered "trace") as [->|?];
    [by destruct l|].
  destruct (String.eqb_spec lowered "debug") as [->|?];
    [by destruct l|].
  destruct (String.eqb_spec lowered "info") as [->|?];
    [by destruct l|].
  destruct (String.eqb_spec lowered "warn") as [->|?];
    [by destruct l|].
  destruct (String.eqb_spec lowered "error") as [->|?];
    [by destruct l|].
  split; [done|]. destruct l; simpl; congruence.
Qed.

(** C10: levels and severities are matched after lowering the string,
    so every capitalization of one of the five names converts to its
    level, a string converts to a level exactly when its lowered form
    is the level's name, and it is rejected exactly when its lowered
    form is none of the five names. *)
Theorem convertTerraformLogLevel_case_insensitive (s : string) :
  (∀ l, Strings.isCapitalizationOf s (LogLevel_name l) = true →
        convertTerraformLogLevel s = inr l) ∧
  (∀ l, convertTerraformLogLevel s = inr l ↔
        Strings.ToLower unicodeLower s = LogLevel_name l) ∧
  ((∃ e, convertTerraformLogLevel s = inl e) ↔
   ∀ l, Strings.ToLower unicodeLower s ≠ LogLevel_name l).
Proof.
  split; [|split].
  - intros l Hcap. apply convertTerraformLogLevel_spec.
    apply ToLower_capitalization; [by destruct l | done].
  - apply convertTerraformLogLevel_spec.
  - split.
    + intros [e He] l Hl. apply convertTerraformLogLevel_spec in Hl. congruence.
    + intros Hno. destruct (convertTerraformLogLevel s) as [e|l] eqn:E; [eauto|].
      apply convertTerraformLogLevel_spec in E. by destruct (Hno l).
Qed.

End LogLevelProperties.

(** The mixed-case spelling ["WaRn"] converts to the warning level. *)
Lemma convertTerraformLogLevel_case_insensitive_witness :
  @convertTerraformLogLevel Sample.externals "WaRn" = inr LogLevel_WARN.
Proof.
  apply (@convertTerraformLogLevel_case_insensitive Sample.externals "WaRn").
  reflexivity.
Defined.

(** *** The structured relay *)

Section RelayProperties.

Context `{Externals}.

(** What the loop body sends for one record, read off the relay on a
    stream of that record alone. *)
Lemma structuredRelay_cons (log : terraformProvisionLog)
    (rest : list (string + terraformProvisionLog)) :
  structuredRelay (inr log :: rest) =
  structuredRelay [inr log] ++ structuredRelay rest.
Proof.
  simpl.
  destruct (convertTerraformLogLevel (ProvisionLog_Level log)); [done|].
  destruct (ProvisionLog_Diagnostic log) as [d|]; [|done].
  by destruct (convertTerraformLogLevel (Diagnostic_Severity d)).
Qed.



End RelayProperties.


(** *** The correlator *)

Section CorrelatorProperties.

Implicit Types (agents : gmap string Agent)
  (resourceDependencies : gmap string (list string)).

Lemma associate_firstMatch agents (resourceNode : list string) :
  firstMatch agents resourceNode (associate agents resourceNode None).
Proof.
  induction resourceNode as [|dep rest IH]; simpl; [constructor|].
  destruct (agents !! dep) as [found|] eqn:Hdep.
  - exists [], dep, rest. by repeat split.
  - destruct (associate agents rest None) as [found|]; simpl in *.
    + destruct IH as (pre & d & post & -> & Hpre & Hd).
      exists (dep :: pre), d, post. repeat split; [|done]. by constructor.
    + by constructor.
Qed.

Lemma correlateStep_acc agents resourceDependencies
    (resources : list Resource) (resource : StateResource) :
  correlateStep agents resourceDependencies resources resource =
  resources ++ correlateStep agents resourceDependencies [] resource.
Proof.
  unfold correlateStep.
  destruct (String.eqb _ _); [by rewrite app_nil_r|].
  destruct (resourceDependencies !! _); [done|by rewrite app_nil_r].
Qed.

Lemma correlate_acc agents resourceDependencies
    (listing : list StateResource) (resources : list Resource) :
  foldl (correlateStep agents resourceDependencies) resources listing =
  resources ++ correlate agents resourceDependencies listing.
Proof.
  unfold correlate. revert resources.
  induction listing as [|resource listing IH]; intros resources; simpl.
  - by rewrite app_nil_r.
  - rewrite IH, (IH (correlateStep _ _ [] _)), correlateStep_acc.
    by rewrite app_assoc.
Qed.

Lemma correlate_app agents resourceDependencies (before after : list StateResource) :
  correlate agents resourceDependencies (before ++ after) =
  correlate agents resourceDependencies before ++
  correlate agents resourceDependencies after.
Proof.
  unfold correlate at 1. rewrite foldl_app. apply correlate_acc.
Qed.

(** C1: a resource of the flat listing that is not an agent contributes
    to the output, between the contributions of the resources before
    and after it, nothing when its key [type.name] is absent from the
    direct-dependency map, and otherwise one resource with its name and
    type whose agent is the table entry of the first dependency, in the
    order of the dependency list, that is a key of the agent table, and
    is unset when no dependency is a key. *)
Theorem correlate_resource agents resourceDependencies
    (before after : list StateResource) (resource : StateResource) :
  StateResource_Type resource ≠ "coder_agent" →
  (resourceDependencies !! resourceKey resource = None →
     correlate agents resourceDependencies (before ++ resource :: after) =
     correlate agents resourceDependencies before ++
     correlate agents resourceDependencies after) ∧
  (∀ resourceNode,
     resourceDependencies !! resourceKey resource = Some resourceNode →
     ∃ agent,
       firstMatch agents resourceNode agent ∧
       correlate agents resourceDependencies (before ++ resource :: after) =
       correlate agents resourceDependencies before ++
       {| Resource_Name := StateResource_Name resource;
          Resource_Type := StateResource_Type resource;
          Resource_Agent := agent |} ::
       correlate agents resourceDependencies after).
Proof.
  intros Htype.
  assert (String.eqb (StateResource_Type resource) "coder_agent" = false) as Hne
    by by apply String.eqb_neq.
  rewrite correlate_app, (correlate_app _ _ [resource] after).
  change (correlate agents resourceDependencies [resource])
    with (correlateStep agents resourceDependencies [] resource).
  unfold correlateStep. rewrite Hne.
  split.
  - intros Hkey. by rewrite Hkey.
  - intros resourceNode Hkey. rewrite Hkey.
    exists (associate agents resourceNode None).
    split; [apply associate_firstMatch|done].
Qed.

End CorrelatorProperties.

(** The resource [null_resource.web] depends on a provider node and then
    on the agent: the agent is attached; [null_resource.orphan] after it
    is unknown to the graph and contributes nothing. *)
Lemma correlate_resource_witness :
  ∃ agent,
    firstMatch Sample.agentTable ["provider.null"; "coder_agent.dev"] agent ∧
    correlate Sample.agentTable Sample.dependencyMap
      ([] ++ Sample.web :: [Sample.orphan]) =
    [] ++ {| Resource_Name := "web"; Resource_Type := "null_resource";
             Resource_Agent := agent |} :: [].
Proof.
  apply (correlate_resource Sample.agentTable Sample.dependencyMap
           [] [Sample.orphan] Sample.web); [discriminate|reflexivity].
Defined.

(** *** The agent tables *)

Section AgentProperties.

Context `{Externals}.


Lemma planAgents_lookup (resources : list ConfigResource)
    (init : gmap string Agent) (key : string) (agent : Agent) :
  foldl (λ agents resource,
           if negb (String.eqb (ConfigResource_Type resource) "coder_agent")
           then agents
           else <[ConfigResource_Address resource := planAgent resource]> agents)
        init resources !! key = Some agent →
  init !! key = Some agent ∨
  ∃ resource, resource ∈ resources ∧
              ConfigResource_Type resource = "coder_agent" ∧
              ConfigResource_Address resource = key ∧
              agent = planAgent resource.
Proof.
  revert init. induction resources as [|resource resources IH]; intros init; simpl.
  - by left.
  - intros Hlook. apply IH in Hlook as [Hinit | (r & Hin & Hr)].
    + destruct (String.eqb_spec (ConfigResource_Type resource) "coder_agent")
        as [Htype|Htype]; simpl in Hinit; [|by left].
      rewrite lookup_insert in Hinit. case_decide; [|by left].
      right. exists resource. simplify_eq. repeat split; [apply list_elem_of_here|done].
    + right. exists r. split; [by apply list_elem_of_further|done].
Qed.

Lemma applyAgents_lookup (resources : list StateResource)
    (init agents : gmap string Agent) (key : string) (agent : Agent) :
  applyAgents resources init = inr agents →
  agents !! key = Some agent →
  init !! key = Some agent ∨
  ∃ resource attrs, resource ∈ resources ∧
                    StateResource_Type resource = "coder_agent" ∧
                    resourceKey resource = key ∧
                    mapstructure_Decode (StateResource_AttributeValues resource)
                      = inr attrs ∧
                    agent = applyAgent attrs.
Proof.
  revert init. induction resources as [|resource resources IH]; intros init; simpl.
  - intros [= ->]. by left.
  - destruct (String.eqb_spec (StateResource_Type resource) "coder_agent")
      as [Htype|Htype]; simpl.
    + destruct (mapstructure_Decode (StateResource_AttributeValues resource))
        as [err|attrs] eqn:Hdecode; [done|].
      intros Hrun Hlook. destruct (IH _ Hrun Hlook) as [Hinit | (r & a & Hin & Hr)].
      * rewrite lookup_insert in Hinit. case_decide; [|by left].
        right. exists resource, attrs. simplify_eq.
        repeat split; [apply list_elem_of_here|done..].
      * right. exists r, a. split; [by apply list_elem_of_further|done].
    + intros Hrun Hlook. destruct (IH _ Hrun Hlook) as [Hinit | (r & a & Hin & Hr)];
        [by left|].
      right. exists r, a. split; [by apply list_elem_of_further|done].
Qed.


Lemma planStep_lookup (agents : gmap string Agent) (resource : ConfigResource)
    (key : string) :
  planStep agents resource !! key =
  if decide (ConfigResource_Type resource = "coder_agent" ∧
             ConfigResource_Address resource = key)
  then Some (planAgent resource)
  else agents !! key.
Proof.
  unfold planStep.
  destruct (String.eqb_spec (ConfigResource_Type resource) "coder_agent")
    as [Htype|Htype]; simpl.
  - destruct (decide (ConfigResource_Address resource = key)) as [<-|Hne].
    + rewrite lookup_insert_eq. by rewrite decide_True.
    + rewrite lookup_insert_ne by done. rewrite decide_False; [done|]. by intros [_ ?].
  - rewrite decide_False; [done|]. by intros [? _].
Qed.

Lemma planAgents_later (after : list ConfigResource) (agents : gmap string Agent)
    (key : string) :
  Forall (λ later, ¬ (ConfigResource_Type later = "coder_agent" ∧
                      ConfigResource_Address later = key)) after →
  foldl planStep agents after !! key = agents !! key.
Proof.
  intros Hafter. revert agents.
  induction Hafter as [|later after Hlater _ IH]; intros agents; simpl; [done|].
  rewrite IH, planStep_lookup. by rewrite decide_False.
Qed.

Lemma applyAgents_app (before after : list StateResource)
    (agents : gmap string Agent) :
  applyAgents (before ++ after) agents =
  match applyAgents before agents with
  | inl err => inl err
  | inr table => applyAgents after table
  end.
Proof.
  revert agents. induction before as [|resource before IH]; intros agents; simpl;
    [done|].
  destruct (negb (String.eqb (StateResource_Type resource) "coder_agent"));
    [apply IH|].
  destruct (mapstructure_Decode (StateResource_AttributeValues resource));
    [done|apply IH].
Qed.

Lemma applyAgents_later (after : list StateResource)
    (agents table : gmap string Agent) (key : string) :
  applyAgents after agents = inr table →
  Forall (λ later, ¬ (StateResource_Type later = "coder_agent" ∧
                      resourceKey later = key)) after →
  table !! key = agents !! key.
Proof.
  intros Hrun Hafter. revert agents Hrun.
  induction Hafter as [|later after Hlater _ IH]; intros agents; simpl.
  - by intros [= ->].
  - destruct (String.eqb_spec (StateResource_Type later) "coder_agent")
      as [Htype|Htype]; simpl; [|apply IH].
    destruct (mapstructure_Decode (StateResource_AttributeValues later));
      [done|].
    intros Hrun. rewrite (IH _ Hrun). rewrite lookup_insert_ne; [done|].
    intros Hkey. by apply Hlater.
Qed.




End AgentProperties.


(** *** The dependency-graph extractor *)

Section GraphProperties.

Context `{Externals}.

Lemma appendLabels_fold (graph : Graph) (names : list string)
    (dependencies : list string) :
  foldl (λ dependencies destination,
           match Graph_Nodes_Lookup graph !! destination with
           | None => dependencies
           | Some dependencyNode =>
               match Node_Attrs dependencyNode !! "label" with
               | None => dependencies
               | Some label => dependencies ++ [trimLabel label]
               end
           end)
        dependencies names =
  dependencies ++
  omap (λ name, Graph_Nodes_Lookup graph !! name ≫= labelOf) names.
Proof.
  revert dependencies.
  induction names as [|name names IH]; intros dependencies; simpl.
  - by rewrite app_nil_r.
  - rewrite IH. unfold labelOf.
    destruct (Graph_Nodes_Lookup graph !! name) as [node|]; simpl; [|done].
    destruct (Node_Attrs node !! "label"); simpl; [|done].
    by rewrite <- app_assoc.
Qed.

Lemma appendLabels_spec (graph : Graph) (dependencies : list string)
    (edges : option (gmap string (list Edge))) :
  appendLabels graph dependencies edges ≡ₚ
  dependencies ++
  omap (λ name, Graph_Nodes_Lookup graph !! name ≫= labelOf) (adjacentNames edges).
Proof.
  destruct edges as [edges|]; simpl; [|by rewrite app_nil_r].
  by rewrite appendLabels_fold, rangeKeys_perm.
Qed.

(** The list the loop body of lines 487-504 builds for a node. *)
Lemma dependencies_spec (graph : Graph) (node : Node) :
  foldl (appendLabels graph) []
    [Graph_Edges_SrcToDsts graph !! Node_Name node;
     Graph_Edges_DstToSrcs graph !! Node_Name node] ≡ₚ
  neighbourLabels graph node.
Proof.
  unfold neighbourLabels. simpl.
  rewrite appendLabels_spec, appendLabels_spec, omap_app. done.
Qed.

Lemma directStep_lookup (graph : Graph) (direct : gmap string (list string))
    (node : Node) (key : string) :
  directStep graph direct node !! key =
  if decide (labelOf node = Some key)
  then Some (foldl (appendLabels graph) []
               [Graph_Edges_SrcToDsts graph !! Node_Name node;
                Graph_Edges_DstToSrcs graph !! Node_Name node])
  else direct !! key.
Proof.
  unfold directStep, labelOf.
  destruct (Node_Attrs node !! "label") as [label|]; cbn [fmap option_fmap option_map].
  - destruct (decide (trimLabel label = key)) as [<-|Hne].
    + by rewrite lookup_insert_eq, decide_True.
    + rewrite lookup_insert_ne, decide_False by congruence. done.
  - by rewrite decide_False.
Qed.

Lemma direct_later (graph : Graph) (after : list Node)
    (direct : gmap string (list string)) (key : string) :
  Forall (λ later, labelOf later ≠ Some key) after →
  foldl (directStep graph) direct after !! key = direct !! key.
Proof.
  intros Hafter. revert direct.
  induction Hafter as [|later after Hlater _ IH]; intros direct; simpl; [done|].
  rewrite IH, directStep_lookup. by case_decide.
Qed.

Lemma direct_keys (graph : Graph) (nodes : list Node)
    (direct : gmap string (list string)) (key : string) :
  is_Some (foldl (directStep graph) direct nodes !! key) ↔
  is_Some (direct !! key) ∨ ∃ node, node ∈ nodes ∧ labelOf node = Some key.
Proof.
  revert direct. induction nodes as [|node nodes IH]; intros direct; simpl.
  - split; [by left|]. intros [?|(node & Hin & _)]; [done|]. by apply elem_of_nil in Hin.
  - rewrite IH, directStep_lookup. split.
    + intros [Hstep|(later & Hin & Hlabel)].
      * case_decide; [right|by left]. exists node. split; [apply list_elem_of_here|done].
      * right. exists later. split; [by apply list_elem_of_further|done].
    + intros [Hdirect|(n & Hin & Hlabel)].
      * left. by case_decide.
      * apply elem_of_cons in Hin as [->|Hin].
        -- left. by rewrite decide_True.
        -- right. by exists n.
Qed.

(** C2, as the code has it: text that the parser or the analysis
    refuses yields an error and no map.  Otherwise the keys of the map
    are exactly the stripped labels of the labelled nodes, and for a
    labelled node after which no node of the graph carries the same
    stripped label, the entry of its stripped label lists, in some
    order, the stripped labels of the labelled nodes joined to it by an
    edge, outbound and inbound alike. *)
Theorem findDirectDependencies_spec (rawGraph : string) :
  (∀ err, gographviz_ParseString rawGraph = inl err →
          findDirectDependencies rawGraph =
          inl (Wrapf "parse graph: %w" [] (Foreign err))) ∧
  (∀ parsedGraph err,
     gographviz_ParseString rawGraph = inr parsedGraph →
     gographviz_NewAnalysedGraph parsedGraph = inl err →
     findDirectDependencies rawGraph =
     inl (Wrapf "analyze graph: %w" [] (Foreign err))) ∧
  (∀ parsedGraph graph,
     gographviz_ParseString rawGraph = inr parsedGraph →
     gographviz_NewAnalysedGraph parsedGraph = inr graph →
     ∃ direct,
       findDirectDependencies rawGraph = inr direct ∧
       (∀ key, is_Some (direct !! key) ↔
               ∃ node, node ∈ Graph_Nodes_Nodes graph ∧ labelOf node = Some key) ∧
       (∀ before node after label,
          Graph_Nodes_Nodes graph = before ++ node :: after →
          labelOf node = Some label →
          Forall (λ later, labelOf later ≠ Some label) after →
          ∃ dependencies,
            direct !! label = Some dependencies ∧
            dependencies ≡ₚ neighbourLabels graph node)).
Proof.
  unfold findDirectDependencies. split; [|split].
  - by intros err ->.
  - by intros parsedGraph err -> ->.
  - intros parsedGraph graph -> ->. eexists. split; [done|]. split.
    + intros key. rewrite direct_keys, lookup_empty. split.
      * by intros [[]%is_Some_None|].
      * by right.
    + intros before node after label -> Hlabel Hafter.
      rewrite foldl_app. simpl. rewrite direct_later by done.
      rewrite directStep_lookup, decide_True by done.
      eexists. split; [done|]. apply dependencies_spec.
Qed.

End GraphProperties.

(** In the graph [twins] the node [c] is the only one labelled [y]; its
    entry lists the label of its one neighbour. *)
Lemma findDirectDependencies_spec_witness :
  ∃ direct,
    @findDirectDependencies Sample.externals Sample.twinsText = inr direct ∧
    ∃ dependencies,
      direct !! "y" = Some dependencies ∧
      dependencies ≡ₚ neighbourLabels Sample.twins Sample.nodeC.
Proof.
  destruct (@findDirectDependencies_spec Sample.externals Sample.twinsText)
    as (_ & _ & Hgraph).
  destruct (Hgraph Sample.twins Sample.twins eq_refl eq_refl)
    as (direct & Hrun & _ & Hentry).
  exists direct. split; [exact Hrun|].
  apply (Hentry [Sample.nodeA; Sample.nodeB] Sample.nodeC [] "y");
    [reflexivity|reflexivity|constructor].
Defined.

(** The claim fails for a node whose label a later node repeats: in
    [twins] the nodes [a] and [b] are both labelled [x], [a] has the
    neighbour [c] labelled [y], and the entry of [x] is the empty list of
    [b]. *)
Lemma findDirectDependencies_twins_counterexample :
  Sample.nodeA ∈ Graph_Nodes_Nodes Sample.twins ∧
  labelOf Sample.nodeA = Some "x" ∧
  neighbourLabels Sample.twins Sample.nodeA = ["y"] ∧
  @findDirectDependencies Sample.externals Sample.twinsText = inr Sample.twinsDirect ∧
  Sample.twinsDirect !! "x" = Some [] ∧
  ¬ ([] ≡ₚ neighbourLabels Sample.twins Sample.nodeA).
Proof.
  split; [apply list_elem_of_here|].
  split; [reflexivity|]. split; [reflexivity|]. split; [reflexivity|].
  split; [reflexivity|].
  intros Hperm. apply Permutation_length in Hperm. discriminate Hperm.
Qed.

(** *** The session *)

Section SessionProperties.

Context `{Externals}.

Lemma routeParameters_supported (params : list ParameterValue)
    (env vars : list string) :
  forallb isSupported params = true →
  routeParameters params env vars =
  inr (env ++ map assignmentOf (filter (λ p, isEnvironment p = true) params),
       vars ++ map assignmentOf (filter (λ p, isProvisioner p = true) params)).
Proof.
  revert env vars. induction params as [|param params IH]; intros env vars Hall.
  - simpl. by rewrite !app_nil_r.
  - simpl in Hall. apply andb_true_iff in Hall as [Hparam Hall].
    cbn [routeParameters]. rewrite filter_cons, filter_cons.
    unfold isSupported, isEnvironment, isProvisioner, assignmentOf in *.
    destruct (ParameterValue_DestinationScheme param) eqn:Hscheme;
      [| |done]; rewrite IH by done.
    + rewrite decide_True, decide_False by done. by rewrite <- app_assoc.
    + rewrite decide_False, decide_True by done. by rewrite <- app_assoc.
Qed.

Lemma routeParameters_unsupported (params : list ParameterValue)
    (env vars : list string) :
  forallb isSupported params = false →
  ∃ before param after,
    params = before ++ param :: after ∧
    forallb isSupported before = true ∧
    isSupported param = false ∧
    routeParameters params env vars =
    inl (Errorf "unsupported parameter type %q for %q"
           [ArgScheme (ParameterValue_DestinationScheme param);
            ArgString (ParameterValue_Name param)]).
Proof.
  revert env vars. induction params as [|param params IH]; intros env vars Hall;
    [done|].
  simpl in Hall. cbn [routeParameters].
  destruct (isSupported param) eqn:Hparam; simpl in Hall.
  - unfold isSupported, isEnvironment, isProvisioner in Hparam.
    destruct (ParameterValue_DestinationScheme param) eqn:Hscheme; [| |done].
    + destruct (IH (env ++ [assignment (ParameterValue_Name param)
                              (ParameterValue_Value param)]) vars Hall)
        as (before & bad & after & -> & Hbefore & Hbad & Hrun).
      exists (param :: before), bad, after. repeat split; [|done..].
      simpl. unfold isSupported at 1, isEnvironment. by rewrite Hscheme.
    + destruct (IH env (vars ++ [assignment (ParameterValue_Name param)
                                   (ParameterValue_Value param)]) Hall)
        as (before & bad & after & -> & Hbefore & Hbad & Hrun).
      exists (param :: before), bad, after. repeat split; [|done..].
      simpl. unfold isSupported at 1, isEnvironment, isProvisioner.
      by rewrite Hscheme.
  - exists [], param, params. repeat split; [done|].
    unfold isSupported, isEnvironment, isProvisioner in Hparam.
    by destruct (ParameterValue_DestinationScheme param).
Qed.

Lemma foldl_var (vars : list string) (args : list string) :
  foldl (λ args variable, args ++ ["-var"; variable]) args vars =
  args ++ flat_map (λ variable, ["-var"; variable]) vars.
Proof.
  revert args. induction vars as [|variable vars IH]; intros args; simpl.
  - by rewrite app_nil_r.
  - by rewrite IH, <- app_assoc.
Qed.

Ltac proc_unfold :=
  unfold external, externalErr, emit, returnSend, Return, call, result;
  cbn [mbind Proc_bind mret Proc_ret].

Lemma flat_map_var (params : list ParameterValue) :
  flat_map (λ variable, ["-var"; variable]) (map assignmentOf params) =
  flat_map (λ p, ["-var"; assignmentOf p]) params.
Proof. induction params as [|p params IH]; simpl; [done|by rewrite IH]. Qed.

Lemma engineArgs_vars (start : Provision_Start) (planfilePath : string)
    (vars : list string) :
  engineArgs start planfilePath vars =
  engineArgs start planfilePath [] ++
  flat_map (λ variable, ["-var"; variable]) vars.
Proof. unfold engineArgs. by rewrite foldl_var. Qed.

(** A prepared session whose parameters are all supported runs the
    engine command, after a prefix of events that sends nothing, runs
    nothing and asks for no graph, and goes on with [afterRun]. *)
Lemma Provision_prepared (t : terraform) (w : World) (start : Provision_Start)
    (env vars : list string) :
  prepared t w start →
  routeParameters (Start_ParameterValues start) (baseEnv w start) [] =
    inr (env, vars) →
  ∃ pre,
    sent pre = [] ∧ invoked pre = [] ∧ graphRequests pre = 0 ∧
    result (Provision t w) =
    let args := engineArgs start
                  (filepath_Join (Start_Directory start) "terraform.tfplan")
                  vars in
    let rest := result (afterRun w start
                  (filepath_Join (Start_Directory start) "terraform.tfstate")
                  (filepath_Join (Start_Directory start) "terraform.tfplan")
                  (cmd_Run w args env)) in
    (rest.1, pre ++ EvRun (binaryPath t) args env (Start_Directory start) :: rest.2).
Proof.
  intros (Hrecv & Hwrite & Hnew & (version & Hversion & Hmin) & Hcache & Hinit)
    Hroute.
  unfold Provision. rewrite Hrecv. proc_unfold.
  rewrite Hnew, Hversion. cbn [mbind Proc_bind mret Proc_ret].
  rewrite Hmin, Hinit, Hroute. cbn [mbind Proc_bind mret Proc_ret negb].
  destruct (afterRun _ _ _ _ _) as [[r|[]] post].
  exists ([EvRecv] ++
          (if (0 <? length (Start_State start))%nat
           then [EvWriteFile
                   (filepath_Join (Start_Directory start) "terraform.tfstate")
                   (Start_State start)]
           else []) ++
          [EvNewTerraform (Start_Directory start) (binaryPath t); EvVersion] ++
          (if negb (String.eqb (cachePath t) "")
           then [EvSetEnv [("TF_PLUGIN_CACHE_DIR", cachePath t)]]
           else []) ++
          [EvDebug "running initialization"; EvInit;
           EvDebug "ran initialization"]).
  destruct (0 <? length (Start_State start))%nat eqn:Hstate;
    [rewrite (Hwrite eq_refl)|];
    (destruct (negb (String.eqb (cachePath t) "")) eqn:Hc;
     [rewrite (Hcache eq_refl)|]);
    cbn; done.
Qed.

Lemma sent_app (t1 t2 : list Event) : sent (t1 ++ t2) = sent t1 ++ sent t2.
Proof. apply omap_app. Qed.

Lemma invoked_app (t1 t2 : list Event) :
  invoked (t1 ++ t2) = invoked t1 ++ invoked t2.
Proof. apply omap_app. Qed.

Lemma graphRequests_app (t1 t2 : list Event) :
  graphRequests (t1 ++ t2) = graphRequests t1 + graphRequests t2.
Proof. unfold graphRequests. by rewrite omap_app, length_app. Qed.

Lemma parseTerraformPlan_quiet (w : World) (planfilePath : string) :
  invoked (result (parseTerraformPlan w planfilePath)).2 = [].
Proof.
  unfold parseTerraformPlan. proc_unfold.
  destruct (terraform_ShowPlanFile w planfilePath); cbn; [done|].
  destruct (terraform_Graph w); cbn; [done|].
  by destruct (findDirectDependencies _).
Qed.

Lemma parseTerraformApply_quiet (w : World) (statefilePath : string) :
  invoked (result (parseTerraformApply w statefilePath)).2 = [].
Proof.
  unfold parseTerraformApply. proc_unfold.
  destruct (os_ReadFile w statefilePath); cbn; [done|].
  destruct (terraform_ShowStateFile w statefilePath) as [|state]; cbn; [done|].
  destruct (State_Values state); cbn; [|done].
  destruct (terraform_Graph w); cbn; [done|].
  destruct (findDirectDependencies _); cbn; [done|].
  by destruct (applyAgents _ _).
Qed.

Lemma result_snd {R} (p : Proc R Empty_set) : (result p).2 = p.2.
Proof. by destruct p as [[r|[]] trace]. Qed.

Lemma call_eq {R R'} (p : Proc R Empty_set) :
  @call R R' p = (inr (result p).1, (result p).2).
Proof. unfold call. by destruct (result p). Qed.

Lemma bind_snd {R A B} (m : Proc R A) (f : A → Proc R B) :
  (m ≫= f).2 = m.2 ++ match m.1 with inr a => (f a).2 | inl _ => [] end.
Proof.
  destruct m as [[r|a] trace]; cbn; [by rewrite app_nil_r|].
  by destruct (f a).
Qed.

Lemma afterRun_quiet (w : World) (start : Provision_Start)
    (statefilePath planfilePath : string) (runErr : option string) :
  invoked (result (afterRun w start statefilePath planfilePath runErr)).2 = [].
Proof.
  rewrite result_snd. unfold afterRun.
  destruct runErr as [errText|], (Start_DryRun start).
  - by destruct (shutdown_Err w).
  - proc_unfold. by destruct (os_ReadFile w statefilePath).
  - rewrite bind_snd, invoked_app, call_eq. cbn [fst snd].
    rewrite parseTerraformPlan_quiet. by destruct (result _).1.
  - rewrite bind_snd, invoked_app, call_eq. cbn [fst snd].
    rewrite parseTerraformApply_quiet. by destruct (result _).1.
Qed.

(** The one engine command of a prepared session. *)
Lemma Provision_invokes (t : terraform) (w : World) (start : Provision_Start)
    (env vars : list string) :
  prepared t w start →
  routeParameters (Start_ParameterValues start) (baseEnv w start) [] =
    inr (env, vars) →
  invoked (result (Provision t w)).2 =
  [(engineArgs start
      (filepath_Join (Start_Directory start) "terraform.tfplan") vars, env)].
Proof.
  intros Hprepared Hroute.
  destruct (Provision_prepared t w start env vars Hprepared Hroute)
    as (pre & _ & Hpre & _ & ->).
  cbn. rewrite invoked_app, Hpre. cbn. by rewrite afterRun_quiet.
Qed.

(** A start request with an unsupported parameter: whatever the other
    steps do, the session returns an error, and no response has been
    sent and no engine command run. *)
Lemma Provision_unsupported (t : terraform) (w : World) (start : Provision_Start) :
  stream_Recv w = inr (Provision_Request_Start start) →
  forallb isSupported (Start_ParameterValues start) = false →
  ∃ err, (result (Provision t w)).1 = Some err ∧
         invoked (result (Provision t w)).2 = [] ∧
         sent (result (Provision t w)).2 = [].
Proof.
  intros Hrecv Hbad.
  destruct (routeParameters_unsupported _ (baseEnv w start) [] Hbad)
    as (before & bad & after & _ & _ & _ & Hroute).
  unfold Provision. rewrite Hrecv. proc_unfold. rewrite Hroute.
  destruct (0 <? length (Start_State start))%nat;
    [destruct (os_WriteFile w _ _); [cbn; eauto|]|];
    (destruct (tfexec_NewTerraform w _ _); [cbn; eauto|]);
    (destruct (terraform_Version w) as [|version]; [cbn; eauto|]);
    cbn [mbind Proc_bind mret Proc_ret];
    (destruct (negb (Version_GreaterThanOrEqual version minimumTerraformVersion));
     [cbn; eauto|]);
    (destruct (negb (String.eqb (cachePath t) ""));
     [destruct (terraform_SetEnv w); [cbn; eauto|]|]);
    (destruct (terraform_Init w); cbn; eauto).
Qed.

(** Lines 177-203 in closed form. *)
Lemma engineArgs_closed (start : Provision_Start) (planfilePath : string)
    (vars : list string) :
  engineArgs start planfilePath vars =
  (if Start_DryRun start
   then ["plan"; "-no-color"; "-input=false"; "-json"; "-refresh=true";
         "-out=" +:+ planfilePath]
   else ["apply"; "-no-color"; "-auto-approve"; "-input=false"; "-json";
         "-refresh=true"]) ++
  (match Metadata_WorkspaceTransition (Start_Metadata start) with
   | WorkspaceTransition_DESTROY => ["-destroy"]
   | _ => []
   end) ++
  flat_map (λ variable, ["-var"; variable]) vars.
Proof.
  unfold engineArgs. rewrite foldl_var.
  destruct (Start_DryRun start),
    (Metadata_WorkspaceTransition (Start_Metadata start)); simpl; try done.
Qed.

(** C6: a prepared session runs one engine command.  Its arguments are
    those of [plan] with the plan file for a dry run and those of
    [apply -auto-approve] for a real run, followed in both cases by
    [-destroy] when the workspace is being destroyed, and then by the
    [-var] pairs. *)
Theorem Provision_engine_command (t : terraform) (w : World)
    (start : Provision_Start) (env vars : list string) :
  prepared t w start →
  routeParameters (Start_ParameterValues start) (baseEnv w start) [] =
    inr (env, vars) →
  ∃ args,
    invoked (result (Provision t w)).2 = [(args, env)] ∧
    args =
    (if Start_DryRun start
     then ["plan"; "-no-color"; "-input=false"; "-json"; "-refresh=true";
           "-out=" +:+ filepath_Join (Start_Directory start) "terraform.tfplan"]
     else ["apply"; "-no-color"; "-auto-approve"; "-input=false"; "-json";
           "-refresh=true"]) ++
    (match Metadata_WorkspaceTransition (Start_Metadata start) with
     | WorkspaceTransition_DESTROY => ["-destroy"]
     | _ => []
     end) ++
    flat_map (λ variable, ["-var"; variable]) vars.
Proof.
  intros Hprepared Hroute. eexists. split.
  - by apply Provision_invokes.
  - apply engineArgs_closed.
Qed.

(** C5: when every parameter has a supported destination, each
    parameter goes to exactly one place: a prepared session runs the
    engine with the environment extended by [NAME=VALUE] for the
    parameters of the environment scheme, in their order, and with
    [-var NAME=VALUE] arguments for the parameters of the engine-variable
    scheme, in their order.  When some parameter has an unsupported
    destination the session returns an error without having run the
    engine command or sent a response, and in a prepared session that
    error names the first such parameter. *)
Theorem Provision_parameters (t : terraform) (w : World)
    (start : Provision_Start) :
  stream_Recv w = inr (Provision_Request_Start start) →
  (forallb isSupported (Start_ParameterValues start) = true →
     length (filter (λ p, isEnvironment p = true) (Start_ParameterValues start)) +
     length (filter (λ p, isProvisioner p = true) (Start_ParameterValues start)) =
     length (Start_ParameterValues start) ∧
     (prepared t w start →
      invoked (result (Provision t w)).2 =
      [(engineArgs start
          (filepath_Join (Start_Directory start) "terraform.tfplan") [] ++
        flat_map (λ p, ["-var"; assignmentOf p])
          (filter (λ p, isProvisioner p = true) (Start_ParameterValues start)),
        baseEnv w start ++
        map assignmentOf
          (filter (λ p, isEnvironment p = true) (Start_ParameterValues start)))])) ∧
  (forallb isSupported (Start_ParameterValues start) = false →
     (∃ err, (result (Provision t w)).1 = Some err ∧
             invoked (result (Provision t w)).2 = [] ∧
             sent (result (Provision t w)).2 = []) ∧
     (prepared t w start →
      ∃ before param after,
        Start_ParameterValues start = before ++ param :: after ∧
        forallb isSupported before = true ∧
        isSupported param = false ∧
        (result (Provision t w)).1 =
        Some (Errorf "unsupported parameter type %q for %q"
                [ArgScheme (ParameterValue_DestinationScheme param);
                 ArgString (ParameterValue_Name param)]))).
Proof.
  intros Hrecv. split.
  - intros Hall. split.
    + clear Hrecv. induction (Start_ParameterValues start) as [|p params IH];
        [done|].
      simpl in Hall. apply andb_true_iff in Hall as [Hp Hall].
      rewrite !filter_cons. unfold isSupported, isEnvironment, isProvisioner in *.
      destruct (ParameterValue_DestinationScheme p); [| |done].
      * rewrite decide_True, decide_False by done. simpl. rewrite <- IH by done. lia.
      * rewrite decide_False, decide_True by done. simpl. rewrite <- IH by done. lia.
    + intros Hprepared.
      rewrite (Provision_invokes t w start _ _ Hprepared
                 (routeParameters_supported _ _ _ Hall)).
      rewrite (engineArgs_vars start). cbn [app]. by rewrite flat_map_var.
  - intros Hbad. split; [exact (Provision_unsupported t w start Hrecv Hbad)|].
    intros (_ & Hwrite & Hnew & (version & Hversion & Hmin) & Hcache & Hinit).
    destruct (routeParameters_unsupported _ (baseEnv w start) [] Hbad)
      as (before & bad & after & Hsplit & Hbefore & Hparam & Hroute).
    exists before, bad, after. repeat split; [done..|].
    unfold Provision. rewrite Hrecv. proc_unfold.
    rewrite Hroute, Hnew, Hversion. cbn [mbind Proc_bind mret Proc_ret].
    rewrite Hmin, Hinit. cbn [mbind Proc_bind mret Proc_ret negb].
    destruct (0 <? length (Start_State start))%nat eqn:Hstate;
      [rewrite (Hwrite eq_refl)|];
      (destruct (negb (String.eqb (cachePath t) "")) eqn:Hc;
       [rewrite (Hcache eq_refl)|]); done.
Qed.

(** C3: in a prepared real run whose engine command fails with a
    message, the session reads the state file.  When that succeeds it
    sends one response, a completion with exactly the bytes read as
    state, the message of the command as error (not empty when that
    message is not) and no resources, and returns what the send
    returns.  When the file cannot be read it sends nothing and returns
    the read error. *)
Theorem Provision_apply_failure (t : terraform) (w : World)
    (start : Provision_Start) (env vars : list string) (errText : string) :
  prepared t w start →
  routeParameters (Start_ParameterValues start) (baseEnv w start) [] =
    inr (env, vars) →
  Start_DryRun start = false →
  cmd_Run w
    (engineArgs start (filepath_Join (Start_Directory start) "terraform.tfplan")
       vars) env = Some errText →
  errText ≠ "" →
  (∀ statefileContent,
     os_ReadFile w (filepath_Join (Start_Directory start) "terraform.tfstate") =
       inr statefileContent →
     ∃ complete,
       (result (Provision t w)).1 =
         Foreign <$> stream_Send w (Provision_Response_Complete complete) ∧
       sent (result (Provision t w)).2 = [Provision_Response_Complete complete] ∧
       Complete_State complete = statefileContent ∧
       Complete_Error complete = errText ∧
       Complete_Error complete ≠ "" ∧
       resourceList complete = []) ∧
  (∀ err,
     os_ReadFile w (filepath_Join (Start_Directory start) "terraform.tfstate") =
       inl err →
     (result (Provision t w)).1 =
       Some (Wrapf "read file %q: %w"
               [ArgString (filepath_Join (Start_Directory start)
                             "terraform.tfstate")]
               (Foreign err)) ∧
     sent (result (Provision t w)).2 = []).
Proof.
  intros Hprepared Hroute Hdry Hrun Hmessage.
  destruct (Provision_prepared t w start env vars Hprepared Hroute)
    as (pre & Hsent & _ & _ & ->).
  cbn zeta. rewrite Hrun. unfold afterRun. rewrite Hdry. proc_unfold.
  split.
  - intros statefileContent ->. cbn.
    exists {| Complete_State := statefileContent; Complete_Error := errText;
              Complete_Resources := None |}.
    rewrite sent_app, Hsent. by repeat split.
  - intros err ->. cbn. rewrite sent_app, Hsent. by split.
Qed.

(** C4: in a prepared dry run whose engine command fails with a
    message, when the shutdown signal has fired the session sends one
    response, a completion with no state, no resources and the message
    of the command as error (not empty when that message is not), and
    returns what the send returns; when it has not fired the session
    sends nothing and returns the error of the command, wrapped. *)
Theorem Provision_plan_failure (t : terraform) (w : World)
    (start : Provision_Start) (env vars : list string) (errText : string) :
  prepared t w start →
  routeParameters (Start_ParameterValues start) (baseEnv w start) [] =
    inr (env, vars) →
  Start_DryRun start = true →
  cmd_Run w
    (engineArgs start (filepath_Join (Start_Directory start) "terraform.tfplan")
       vars) env = Some errText →
  errText ≠ "" →
  (∀ cause,
     shutdown_Err w = Some cause →
     ∃ complete,
       (result (Provision t w)).1 =
         Foreign <$> stream_Send w (Provision_Response_Complete complete) ∧
       sent (result (Provision t w)).2 = [Provision_Response_Complete complete] ∧
       Complete_State complete = [] ∧
       Complete_Error complete = errText ∧
       Complete_Error complete ≠ "" ∧
       resourceList complete = []) ∧
  (shutdown_Err w = None →
     (result (Provision t w)).1 =
       Some (Wrapf "plan terraform: %w" [] (Foreign errText)) ∧
     sent (result (Provision t w)).2 = []).
Proof.
  intros Hprepared Hroute Hdry Hrun Hmessage.
  destruct (Provision_prepared t w start env vars Hprepared Hroute)
    as (pre & Hsent & _ & _ & ->).
  cbn zeta. rewrite Hrun. unfold afterRun. rewrite Hdry. proc_unfold.
  split.
  - intros cause ->. cbn.
    exists {| Complete_State := []; Complete_Error := errText;
              Complete_Resources := None |}.
    rewrite sent_app, Hsent. by repeat split.
  - intros ->. cbn. rewrite sent_app, Hsent. by split.
Qed.

(** C9: when the state file is read and shown and the state has no
    values, [parseTerraformApply] returns the completion with the bytes
    of the file as state and the empty, allocated list of resources, and
    its only events are the two reads; a prepared real run whose engine
    command succeeds then sends that completion alone, and has asked for
    no graph. *)
Theorem parseTerraformApply_no_values (w : World) (statefilePath : string)
    (statefileContent : list Byte.byte) (state : State) :
  os_ReadFile w statefilePath = inr statefileContent →
  terraform_ShowStateFile w statefilePath = inr state →
  State_Values state = None →
  result (parseTerraformApply w statefilePath) =
    (inr (Provision_Response_Complete
            {| Complete_State := statefileContent; Complete_Error := "";
               Complete_Resources := Some [] |}),
     [EvReadFile statefilePath; EvShowStateFile statefilePath]) ∧
  (∀ (t : terraform) (start : Provision_Start) env vars,
     prepared t w start →
     routeParameters (Start_ParameterValues start) (baseEnv w start) [] =
       inr (env, vars) →
     Start_DryRun start = false →
     cmd_Run w
       (engineArgs start
          (filepath_Join (Start_Directory start) "terraform.tfplan") vars) env =
       None →
     statefilePath = filepath_Join (Start_Directory start) "terraform.tfstate" →
     sent (result (Provision t w)).2 =
       [Provision_Response_Complete
          {| Complete_State := statefileContent; Complete_Error := "";
             Complete_Resources := Some [] |}] ∧
     graphRequests (result (Provision t w)).2 = 0).
Proof.
  intros Hread Hshow Hvalues.
  assert (result (parseTerraformApply w statefilePath) =
          (inr (Provision_Response_Complete
                  {| Complete_State := statefileContent; Complete_Error := "";
                     Complete_Resources := Some [] |}),
           [EvReadFile statefilePath; EvShowStateFile statefilePath])) as Hparse.
  { unfold parseTerraformApply. proc_unfold.
    rewrite Hread. cbn. rewrite Hshow. cbn. by rewrite Hvalues. }
  split; [done|].
  intros t start env vars Hprepared Hroute Hdry Hrun ->.
  destruct (Provision_prepared t w start env vars Hprepared Hroute)
    as (pre & Hsent & _ & Hgraph & ->).
  cbn zeta. rewrite Hrun. unfold afterRun. rewrite Hdry, call_eq, Hparse.
  proc_unfold. cbn [fst snd app].
  rewrite sent_app, graphRequests_app, Hsent, Hgraph. by split.
Qed.

(** Where the correlator sits in the two parsers: the resources of the
    completion are what [correlate] returns on the agent table and the
    direct dependencies of the graph. *)
Lemma parseTerraformPlan_resources (w : World) (planfilePath rawGraph : string)
    (plan : Plan) (resourceDependencies : gmap string (list string)) :
  terraform_ShowPlanFile w planfilePath = inr plan →
  terraform_Graph w = inr rawGraph →
  findDirectDependencies rawGraph = inr resourceDependencies →
  (result (parseTerraformPlan w planfilePath)).1 =
  inr (completeResponse [] ""
         (Some (correlate (planAgents (Plan_Config_RootModule_Resources plan))
                  resourceDependencies
                  (Plan_PlannedValues_RootModule_Resources plan)))).
Proof.
  intros Hplan Hgraph Hdeps. unfold parseTerraformPlan. proc_unfold.
  rewrite Hplan. cbn. rewrite Hgraph. cbn. by rewrite Hdeps.
Qed.

Lemma parseTerraformApply_resources (w : World) (statefilePath rawGraph : string)
    (statefileContent : list Byte.byte) (state : State) (values : StateValues)
    (resourceDependencies : gmap string (list string))
    (agents : gmap string Agent) :
  os_ReadFile w statefilePath = inr statefileContent →
  terraform_ShowStateFile w statefilePath = inr state →
  State_Values state = Some values →
  terraform_Graph w = inr rawGraph →
  findDirectDependencies rawGraph = inr resourceDependencies →
  applyAgents (StateValues_RootModule_Resources values) ∅ = inr agents →
  (result (parseTerraformApply w statefilePath)).1 =
  inr (completeResponse statefileContent ""
         (Some (correlate agents resourceDependencies
                  (StateValues_RootModule_Resources values)))).
Proof.
  intros Hread Hshow Hvalues Hgraph Hdeps Hagents.
  unfold parseTerraformApply. proc_unfold.
  rewrite Hread. cbn. rewrite Hshow. cbn. rewrite Hvalues. proc_unfold.
  rewrite Hgraph. cbn. rewrite Hdeps, Hagents. done.
Qed.

End SessionProperties.

(** The sample sessions are prepared: every step before the engine
    command succeeds in the sample world. *)
Ltac sample_prepared :=
  repeat split; try reflexivity; try discriminate;
  exists (1%nat : @Version Sample.externals); split; reflexivity.

(** A real run of the sample session whose command fails with
    ["exit status 1"] and leaves the two bytes of the state file. *)
Lemma Provision_apply_failure_witness :
  ∃ complete,
    (result (Provision Sample.engine Sample.failedApply)).1 =
      Foreign <$> stream_Send Sample.failedApply
                    (Provision_Response_Complete complete) ∧
    sent (result (Provision Sample.engine Sample.failedApply)).2 =
      [Provision_Response_Complete complete] ∧
    Complete_State complete = Sample.stateBytes ∧
    Complete_Error complete = "exit status 1" ∧
    Complete_Error complete ≠ "" ∧
    resourceList complete = [].
Proof.
  destruct (@Provision_apply_failure Sample.externals Sample.engine
              Sample.failedApply (Sample.start false)
              Sample.sessionEnv Sample.sessionVars "exit status 1")
    as [Hread _];
    [sample_prepared|reflexivity|reflexivity|reflexivity|discriminate|].
  apply (Hread Sample.stateBytes). reflexivity.
Defined.

(** A dry run of the sample session interrupted after a cancel. *)
Lemma Provision_plan_failure_witness :
  ∃ complete,
    (result (Provision Sample.engine Sample.cancelledPlan)).1 =
      Foreign <$> stream_Send Sample.cancelledPlan
                    (Provision_Response_Complete complete) ∧
    sent (result (Provision Sample.engine Sample.cancelledPlan)).2 =
      [Provision_Response_Complete complete] ∧
    Complete_State complete = [] ∧
    Complete_Error complete = "signal: interrupt" ∧
    Complete_Error complete ≠ "" ∧
    resourceList complete = [].
Proof.
  destruct (@Provision_plan_failure Sample.externals Sample.engine
              Sample.cancelledPlan (Sample.start true)
              Sample.sessionEnv Sample.sessionVars "signal: interrupt")
    as [Hshutdown _];
    [sample_prepared|reflexivity|reflexivity|reflexivity|discriminate|].
  apply (Hshutdown "context canceled"). reflexivity.
Defined.

(** The dry run of the sample session, a workspace being destroyed with
    one engine variable. *)
Lemma Provision_engine_command_witness :
  ∃ args,
    invoked (result (Provision Sample.engine Sample.cancelledPlan)).2 =
      [(args, Sample.sessionEnv)] ∧
    args = ["plan"; "-no-color"; "-input=false"; "-json"; "-refresh=true";
            "-out=/ws/terraform.tfplan"; "-destroy"; "-var"; "size=2"].
Proof.
  apply (@Provision_engine_command Sample.externals Sample.engine
           Sample.cancelledPlan (Sample.start true)
           Sample.sessionEnv Sample.sessionVars);
    [sample_prepared|reflexivity].
Defined.

(** The parameters of the sample session: [REGION] goes to the
    environment and [size] to a [-var] argument. *)
Lemma Provision_parameters_witness :
  1 + 1 = 2 ∧
  invoked (result (Provision Sample.engine Sample.failedApply)).2 =
    [(["apply"; "-no-color"; "-auto-approve"; "-input=false"; "-json";
       "-refresh=true"; "-destroy"] ++ ["-var"; "size=2"],
      ["PATH=/bin"; "CODER_URL=https://coder.example";
       "CODER_WORKSPACE_TRANSITION=destroy"; "CODER_WORKSPACE_NAME=dev";
       "CODER_WORKSPACE_OWNER=kyle"] ++ ["REGION=eu"])].
Proof.
  destruct (@Provision_parameters Sample.externals Sample.engine
              Sample.failedApply (Sample.start false) eq_refl)
    as [Hsupported _].
  destruct (Hsupported eq_refl) as [Hcount Hrun].
  split; [exact Hcount|]. apply Hrun. sample_prepared.
Defined.

(** The real run of the sample session on a state without values. *)
Lemma parseTerraformApply_no_values_witness :
  result (parseTerraformApply Sample.emptyApply "/ws/terraform.tfstate") =
    (inr (Provision_Response_Complete
            {| Complete_State := Sample.stateBytes; Complete_Error := "";
               Complete_Resources := Some [] |}),
     [EvReadFile "/ws/terraform.tfstate"; EvShowStateFile "/ws/terraform.tfstate"]) ∧
  sent (result (Provision Sample.engine Sample.emptyApply)).2 =
    [Provision_Response_Complete
       {| Complete_State := Sample.stateBytes; Complete_Error := "";
          Complete_Resources := Some [] |}] ∧
  graphRequests (result (Provision Sample.engine Sample.emptyApply)).2 = 0.
Proof.
  destruct (@parseTerraformApply_no_values Sample.externals Sample.emptyApply
              "/ws/terraform.tfstate" Sample.stateBytes Sample.noValues
              eq_refl eq_refl eq_refl) as [Hparse Hsession].
  split; [exact Hparse|].
  apply (Hsession Sample.engine (Sample.start false)
           Sample.sessionEnv Sample.sessionVars);
    [sample_prepared|reflexivity..].
Defined.

(** ** The program on concrete inputs *)

(** The label of a node as the engine writes it, quotes included. *)
Example trimLabel_quoted :
  trimLabel (Sample.quoted "null_resource.web") = "null_resource.web".
Proof. reflexivity. Qed.

(** Every leading and trailing quote is cut, an inner one is kept. *)
Example trimLabel_repeated :
  trimLabel (Sample.quoted (Sample.quoted "a" +:+ "b")) =
  "a" +:+ String Strings.quote "b".
Proof. reflexivity. Qed.

(** The engine's severity ["warning"] is not one of the five names. *)
Example convertTerraformLogLevel_warning :
  @convertTerraformLogLevel Sample.externals "warning" =
  inl (Errorf "invalid log level %q" [ArgString "warning"]).
Proof. reflexivity. Qed.

(** A session whose only parameter has the unknown destination 7 stops
    after the initialization. *)
Example Provision_unsupported_sample :
  result (Provision Sample.engine
            (Sample.world Sample.badStart None None (inl "no such file")
               Sample.noValues)) =
  (Some (Errorf "unsupported parameter type %q for %q"
           [ArgScheme (ParameterDestination_other 7); ArgString "odd"]),
   [EvRecv; EvNewTerraform "/ws" "/usr/bin/terraform"; EvVersion;
    EvDebug "running initialization"; EvInit; EvDebug "ran initialization"]).
Proof. reflexivity. Qed.

(** The scenario of the specification: the resource is reported with its
    agent, the resource unknown to the graph is left out. *)
Example correlate_scenario :
  correlate Sample.agentTable Sample.dependencyMap [Sample.web; Sample.orphan] =
  [ {| Resource_Name := "web"; Resource_Type := "null_resource";
       Resource_Agent := Some Sample.devAgent |} ].
Proof. reflexivity. Qed.

(** ** Further properties of the program *)

(** *** Log levels of ASCII strings *)

Section LogLevelAscii.

Context `{Externals}.

Lemma lowerByte_inv (c d : ascii) :
  Strings.isLowerByte d = true →
  Strings.lowerByte c = d →
  (Ascii.eqb c d || Ascii.eqb c (Strings.upperByte d)) = true.
Proof.
  intros Hd <-. revert Hd.
  destruct c as [[] [] [] [] [] [] [] []]; vm_compute; auto; discriminate.
Qed.

Lemma mapBytes_lower_inv (s w : string) :
  Strings.isLowerWord w = true →
  Strings.mapBytes Strings.lowerByte s = w →
  Strings.isCapitalizationOf s w = true.
Proof.
  revert w. induction s as [|c s IH]; intros [|d w] Hw Hs; try discriminate; [done|].
  simpl in *. apply andb_true_iff in Hw as [Hd Hw]. injection Hs as Hc Hs.
  rewrite (lowerByte_inv c d Hd Hc), (IH w Hw Hs). done.
Qed.

(** X1: a string of ASCII bytes converts to a level exactly when it
    spells the level's name in some capitalization, so nothing but the
    five names, in any mix of cases, is accepted. *)
Theorem convertTerraformLogLevel_ascii (s : string) (l : LogLevel) :
  Strings.isASCII s = true →
  (convertTerraformLogLevel s = inr l ↔
   Strings.isCapitalizationOf s (LogLevel_name l) = true).
Proof.
  intros Hascii. rewrite convertTerraformLogLevel_spec.
  assert (Strings.isLowerWord (LogLevel_name l) = true) as Hw by by destruct l.
  split.
  - unfold Strings.ToLower. rewrite Hascii. by apply mapBytes_lower_inv.
  - by apply ToLower_capitalization.
Qed.

End LogLevelAscii.

(** The spelling ["Info"] is accepted as the informational level, and
    only as a capitalization of its name. *)
Lemma convertTerraformLogLevel_ascii_witness :
  @convertTerraformLogLevel Sample.externals "Info" = inr LogLevel_INFO ↔
  Strings.isCapitalizationOf "Info" "info" = true.
Proof.
  apply (@convertTerraformLogLevel_ascii Sample.externals "Info" LogLevel_INFO).
  reflexivity.
Defined.

(** *** The structured relay as a whole *)

Section RelayBounds.

Context `{Externals}.

(** X2: the relay ends at the first record the decoder fails on:
    whatever follows a failed decode, well-formed or not, is never
    relayed. *)
Theorem structuredRelay_stops (pre rest : list (string + terraformProvisionLog))
    (err : string) :
  structuredRelay (pre ++ inl err :: rest) = structuredRelay pre.
Proof.
  induction pre as [|[e|log] pre IH]; [done|done|].
  rewrite <- app_comm_cons.
  rewrite (structuredRelay_cons log (pre ++ inl err :: rest)).
  by rewrite (structuredRelay_cons log pre), IH.
Qed.

(** X3: the relay sends logs only, at most two for each decoded record,
    and the output of each log is the message of a decoded record or the
    detail of its diagnostic. *)
Theorem structuredRelay_logs (decoded : list (string + terraformProvisionLog)) :
  (length (structuredRelay decoded) ≤ 2 * length decoded)%nat ∧
  Forall (λ response,
            ∃ level output log,
              response =
                Provision_Response_Log
                  {| Log_Level := level; Log_Output := output |} ∧
              inr log ∈ decoded ∧
              (output = ProvisionLog_Message log ∨
               ∃ diagnostic,
                 ProvisionLog_Diagnostic log = Some diagnostic ∧
                 output = Diagnostic_Detail diagnostic))
         (structuredRelay decoded).
Proof.
  induction decoded as [|[e|log] rest [IHlen IHall]].
  - split; [simpl; lia|constructor].
  - split; [simpl; lia|constructor].
  - assert (Forall (λ response,
              ∃ level output log',
                response =
                  Provision_Response_Log
                    {| Log_Level := level; Log_Output := output |} ∧
                inr log' ∈ inr log :: rest ∧
                (output = ProvisionLog_Message log' ∨
                 ∃ diagnostic,
                   ProvisionLog_Diagnostic log' = Some diagnostic ∧
                   output = Diagnostic_Detail diagnostic))
              (structuredRelay rest)) as Hrest.
    { eapply Forall_impl; [exact IHall|].
      intros response (level & output & log' & -> & Hin & Hout).
      exists level, output, log'. split; [done|]. split; [|done].
      by apply list_elem_of_further. }
    assert (∀ level, ∃ level' output log',
              Provision_Response_Log
                {| Log_Level := level; Log_Output := ProvisionLog_Message log |} =
              Provision_Response_Log
                {| Log_Level := level'; Log_Output := output |} ∧
              inr log' ∈ inr log :: rest ∧
              (output = ProvisionLog_Message log' ∨
               ∃ diagnostic,
                 ProvisionLog_Diagnostic log' = Some diagnostic ∧
                 output = Diagnostic_Detail diagnostic)) as Hmessage.
    { intros level. exists level, (ProvisionLog_Message log), log.
      split; [done|]. split; [apply list_elem_of_here|by left]. }
    cbn [structuredRelay length]. unfold logResponse.
    destruct (convertTerraformLogLevel (ProvisionLog_Level log)) as [e|level];
      [split; [lia|done]|].
    destruct (ProvisionLog_Diagnostic log) as [diagnostic|] eqn:Hdiagnostic;
      [|split; [cbn [length]; lia|by constructor]].
    destruct (convertTerraformLogLevel (Diagnostic_Severity diagnostic))
      as [e|severity]; [split; [cbn [length]; lia|by constructor]|].
    split; [cbn [length]; lia|].
    constructor; [done|]. constructor; [|done].
    exists severity, (Diagnostic_Detail diagnostic), log.
    split; [done|]. split; [apply list_elem_of_here|]. right. by exists diagnostic.
Qed.

End RelayBounds.

(** *** The correlator on a whole listing *)

Section CorrelatorListing.

Implicit Types (agents : gmap string Agent)
  (resourceDependencies : gmap string (list string)).

(** X4: the resources reported are, in the order of the listing and
    with their names and types, exactly the listed resources that are
    not agents and whose key is in the dependency map: no agent resource
    is reported, none is invented, none is reported twice. *)
Theorem correlate_listing agents resourceDependencies
    (listing : list StateResource) :
  map (λ resource, (Resource_Type resource, Resource_Name resource))
      (correlate agents resourceDependencies listing) =
  map (λ resource, (StateResource_Type resource, StateResource_Name resource))
      (filter (λ resource, reported resourceDependencies resource = true) listing).
Proof.
  induction listing as [|resource listing IH]; [done|].
  change (resource :: listing) with ([resource] ++ listing) at 1.
  rewrite correlate_app, map_app, IH, filter_cons.
  change (correlate agents resourceDependencies [resource])
    with (correlateStep agents resourceDependencies [] resource).
  unfold correlateStep, reported.
  destruct (String.eqb (StateResource_Type resource) "coder_agent");
    [by rewrite decide_False by (simpl; discriminate)|].
  destruct (resourceDependencies !! resourceKey resource).
  - by rewrite decide_True by done.
  - by rewrite decide_False by (simpl; discriminate).
Qed.

(** X5: an agent attached to a reported resource is the table entry of
    one of the direct dependencies of the listed resource it was made
    from; the correlator never attaches an agent the resource does not
    depend on. *)
Theorem correlate_agent_provenance agents resourceDependencies
    (listing : list StateResource) (resource : Resource) (agent : Agent) :
  resource ∈ correlate agents resourceDependencies listing →
  Resource_Agent resource = Some agent →
  ∃ source resourceNode dep,
    source ∈ listing ∧
    StateResource_Name source = Resource_Name resource ∧
    StateResource_Type source = Resource_Type resource ∧
    resourceDependencies !! resourceKey source = Some resourceNode ∧
    dep ∈ resourceNode ∧
    agents !! dep = Some agent.
Proof.
  induction listing as [|source listing IH]; intros Hin Hagent.
  - by apply elem_of_nil in Hin.
  - change (source :: listing) with ([source] ++ listing) in Hin.
    rewrite correlate_app in Hin. apply elem_of_app in Hin as [Hin|Hin].
    + change (correlate agents resourceDependencies [source])
        with (correlateStep agents resourceDependencies [] source) in Hin.
      unfold correlateStep in Hin.
      destruct (String.eqb (StateResource_Type source) "coder_agent");
        [by apply elem_of_nil in Hin|].
      destruct (resourceDependencies !! resourceKey source) as [resourceNode|]
        eqn:Hnode; [|by apply elem_of_nil in Hin].
      apply list_elem_of_singleton in Hin as ->. simpl in Hagent.
      pose proof (associate_firstMatch agents resourceNode) as Hfirst.
      rewrite Hagent in Hfirst. destruct Hfirst as (pre & dep & post & -> & _ & Hdep).
      exists source, (pre ++ dep :: post), dep.
      repeat split; [apply list_elem_of_here|done|..|done].
      apply elem_of_app. right. apply list_elem_of_here.
    + destruct (IH Hin Hagent)
        as (s & resourceNode & dep & Hs & Hname & Htype & Hnode & Hdep & Hentry).
      exists s, resourceNode, dep. repeat split; [by apply list_elem_of_further|done..].
Qed.

End CorrelatorListing.

(** The agent of the one resource reported in the sample scenario is the
    entry of [coder_agent.dev], a dependency of [null_resource.web]. *)
Lemma correlate_agent_provenance_witness :
  ∃ source resourceNode dep,
    source ∈ [Sample.web; Sample.orphan] ∧
    StateResource_Name source = "web" ∧
    StateResource_Type source = "null_resource" ∧
    Sample.dependencyMap !! resourceKey source = Some resourceNode ∧
    dep ∈ resourceNode ∧
    Sample.agentTable !! dep = Some Sample.devAgent.
Proof.
  apply (correlate_agent_provenance Sample.agentTable Sample.dependencyMap
           [Sample.web; Sample.orphan]
           {| Resource_Name := "web"; Resource_Type := "null_resource";
              Resource_Agent := Some Sample.devAgent |} Sample.devAgent);
    [apply list_elem_of_here|reflexivity].
Defined.

(** *** The agent tables as maps *)

Section AgentTables.

Context `{Externals}.

Lemma planAgents_keys (resources : list ConfigResource)
    (agents : gmap string Agent) (key : string) :
  is_Some (foldl planStep agents resources !! key) ↔
  is_Some (agents !! key) ∨
  ∃ resource, resource ∈ resources ∧
              ConfigResource_Type resource = "coder_agent" ∧
              ConfigResource_Address resource = key.
Proof.
  revert agents. induction resources as [|resource resources IH]; intros agents; simpl.
  - split; [by left|]. intros [?|(r & Hin & _)]; [done|]. by apply elem_of_nil in Hin.
  - rewrite IH, planStep_lookup. split.
    + intros [Hstep|(later & Hin & Hlater)].
      * case_decide as Hhere; [right|by left].
        exists resource. split; [apply list_elem_of_here|done].
      * right. exists later. split; [by apply list_elem_of_further|done].
    + intros [Hagents|(r & Hin & Hr)].
      * left. by case_decide.
      * apply elem_of_cons in Hin as [->|Hin].
        -- left. by rewrite decide_True.
        -- right. by exists r.
Qed.

(** X6: the agent table of a plan has an entry for exactly the
    addresses of the [coder_agent] resources of the configuration, and
    the entry of an address is made from the last resource that carries
    it. *)
Theorem planAgents_entry (resources : list ConfigResource) :
  (∀ key,
     is_Some (planAgents resources !! key) ↔
     ∃ resource, resource ∈ resources ∧
                 ConfigResource_Type resource = "coder_agent" ∧
                 ConfigResource_Address resource = key) ∧
  (∀ before resource after,
     resources = before ++ resource :: after →
     ConfigResource_Type resource = "coder_agent" →
     Forall (λ later, ConfigResource_Type later = "coder_agent" →
                      ConfigResource_Address later ≠
                      ConfigResource_Address resource) after →
     planAgents resources !! ConfigResource_Address resource =
     Some (planAgent resource)).
Proof.
  change (planAgents resources) with (foldl planStep ∅ resources). split.
  - intros key. rewrite planAgents_keys, lookup_empty. split.
    + by intros [[]%is_Some_None|].
    + by right.
  - intros before resource after -> Htype Hafter.
    rewrite foldl_app. simpl. rewrite planAgents_later.
    + rewrite planStep_lookup. by rewrite decide_True.
    + eapply Forall_impl; [exact Hafter|]. intros later Hlater [Ht Ha]. by apply Hlater.
Qed.

(** X7: on the plan path an agent never carries an id; its environment
    is the constant of the [env] expression when that is a map of
    strings and is empty otherwise, and its startup script is the
    constant of the [startup_script] expression when that is a string and
    is empty otherwise. *)
Theorem planAgents_fields (resources : list ConfigResource) (key : string)
    (agent : Agent) :
  planAgents resources !! key = Some agent →
  ∃ resource,
    resource ∈ resources ∧
    ConfigResource_Address resource = key ∧
    Agent_Id agent = "" ∧
    Agent_Env agent =
      match ConfigResource_Expressions resource !! "env" with
      | Some envRaw =>
          match Expression_ConstantValue envRaw with
          | GoMapStringString env => env
          | _ => ∅
          end
      | None => ∅
      end ∧
    Agent_StartupScript agent =
      match ConfigResource_Expressions resource !! "startup_script" with
      | Some startupScriptRaw =>
          match Expression_ConstantValue startupScriptRaw with
          | GoString startupScript => startupScript
          | _ => ""
          end
      | None => ""
      end.
Proof.
  intros Hlook.
  apply planAgents_lookup in Hlook as [Hempty | (resource & Hin & _ & Hkey & ->)];
    [by rewrite lookup_empty in Hempty|].
  exists resource. split; [done|]. split; [done|]. unfold planAgent.
  destruct (ConfigResource_Expressions resource !! "instance_id");
    destruct (ConfigResource_Expressions resource !! "startup_script") as [[[]]|];
    destruct (ConfigResource_Expressions resource !! "env") as [[[]]|]; done.
Qed.

Lemma applyAgents_present (resources : list StateResource)
    (agents table : gmap string Agent) (key : string) :
  applyAgents resources agents = inr table →
  is_Some (agents !! key) ∨
  (∃ resource, resource ∈ resources ∧
               StateResource_Type resource = "coder_agent" ∧
               resourceKey resource = key) →
  is_Some (table !! key).
Proof.
  revert agents. induction resources as [|resource resources IH]; intros agents; simpl.
  - intros [= ->] [?|(r & Hin & _)]; [done|]. by apply elem_of_nil in Hin.
  - destruct (String.eqb_spec (StateResource_Type resource) "coder_agent")
      as [Htype|Htype]; simpl.
    + destruct (mapstructure_Decode (StateResource_AttributeValues resource))
        as [|attrs]; [done|].
      intros Hrun Hkey. apply (IH _ Hrun).
      destruct Hkey as [Hagents|(r & Hin & Hr & Hk)].
      * left. destruct (decide (resourceKey resource = key)) as [->|Hne].
        -- by rewrite lookup_insert_eq.
        -- by rewrite lookup_insert_ne.
      * apply elem_of_cons in Hin as [->|Hin].
        -- left. rewrite Hk. by rewrite lookup_insert_eq.
        -- right. by exists r.
    + intros Hrun Hkey. apply (IH _ Hrun).
      destruct Hkey as [Hagents|(r & Hin & Hr & Hk)]; [by left|].
      apply elem_of_cons in Hin as [->|Hin]; [done|]. right. by exists r.
Qed.

Lemma applyAgents_succeeds (resources : list StateResource)
    (agents : gmap string Agent) :
  Forall (λ resource,
            StateResource_Type resource = "coder_agent" →
            ∃ attrs, mapstructure_Decode (StateResource_AttributeValues resource)
                     = inr attrs) resources →
  ∃ table, applyAgents resources agents = inr table.
Proof.
  intros Hall. revert agents.
  induction Hall as [|resource resources Hresource _ IH]; intros agents; simpl;
    [by eexists|].
  destruct (String.eqb_spec (StateResource_Type resource) "coder_agent")
    as [Htype|Htype]; simpl; [|apply IH].
  destruct (Hresource Htype) as [attrs ->]. apply IH.
Qed.

(** X8: when the agent table of a state is built, it has an entry for
    exactly the keys [type.name] of the [coder_agent] resources of the
    state, and the entry of a key is made from the decoded attributes of
    the last resource that carries it. *)
Theorem applyAgents_entry (resources : list StateResource)
    (table : gmap string Agent) :
  applyAgents resources ∅ = inr table →
  (∀ key,
     is_Some (table !! key) ↔
     ∃ resource, resource ∈ resources ∧
                 StateResource_Type resource = "coder_agent" ∧
                 resourceKey resource = key) ∧
  (∀ before resource after,
     resources = before ++ resource :: after →
     StateResource_Type resource = "coder_agent" →
     Forall (λ later, StateResource_Type later = "coder_agent" →
                      resourceKey later ≠ resourceKey resource) after →
     ∃ attrs,
       mapstructure_Decode (StateResource_AttributeValues resource) = inr attrs ∧
       table !! resourceKey resource = Some (applyAgent attrs)).
Proof.
  intros Hrun. split.
  - intros key. split.
    + intros [agent Hagent].
      destruct (applyAgents_lookup _ _ _ _ _ Hrun Hagent)
        as [Hempty | (resource & attrs & Hin & Htype & Hkey & _)];
        [by rewrite lookup_empty in Hempty|].
      by exists resource.
    + intros Hresource. apply (applyAgents_present _ _ _ _ Hrun). by right.
  - intros before resource after -> Htype Hafter.
    rewrite applyAgents_app in Hrun.
    destruct (applyAgents before ∅) as [|middle]; [done|].
    simpl in Hrun. rewrite Htype in Hrun. simpl in Hrun.
    destruct (mapstructure_Decode (StateResource_AttributeValues resource))
      as [|attrs]; [done|].
    exists attrs. split; [done|].
    rewrite (applyAgents_later _ _ _ _ Hrun).
    + by rewrite lookup_insert_eq.
    + eapply Forall_impl; [exact Hafter|]. intros later Hlater [Ht Hk]. by apply Hlater.
Qed.

(** X9: building the agent table of a state fails exactly when the
    attributes of some [coder_agent] resource do not decode; the error
    is the decode error of the first such resource, and the attributes
    of a resource of another type are never decoded. *)
Theorem applyAgents_fails (resources : list StateResource)
    (agents : gmap string Agent) (err : error) :
  applyAgents resources agents = inl err ↔
  ∃ before resource after text,
    resources = before ++ resource :: after ∧
    Forall (λ earlier,
              StateResource_Type earlier = "coder_agent" →
              ∃ attrs, mapstructure_Decode (StateResource_AttributeValues earlier)
                       = inr attrs) before ∧
    StateResource_Type resource = "coder_agent" ∧
    mapstructure_Decode (StateResource_AttributeValues resource) = inl text ∧
    err = Wrapf "decode agent attributes: %w" [] (Foreign text).
Proof.
  split.
  - revert agents. induction resources as [|resource resources IH]; intros agents;
      simpl; [done|].
    destruct (String.eqb_spec (StateResource_Type resource) "coder_agent")
      as [Htype|Htype]; simpl.
    + destruct (mapstructure_Decode (StateResource_AttributeValues resource))
        as [text|attrs] eqn:Hdecode.
      * intros [= <-]. exists [], resource, resources, text. by repeat split.
      * intros Hrun.
        destruct (IH _ Hrun)
          as (before & bad & after & text & -> & Hbefore & Hbad & Htext & ->).
        exists (resource :: before), bad, after, text. repeat split; [|done..].
        constructor; [|done]. intros _. by exists attrs.
    + intros Hrun.
      destruct (IH _ Hrun)
        as (before & bad & after & text & -> & Hbefore & Hbad & Htext & ->).
      exists (resource :: before), bad, after, text. repeat split; [|done..].
      constructor; [|done]. by intros ?.
  - intros (before & resource & after & text & -> & Hbefore & Htype & Hdecode & ->).
    rewrite applyAgents_app.
    destruct (applyAgents_succeeds before agents Hbefore) as [table ->].
    simpl. rewrite Htype. simpl. by rewrite Hdecode.
Qed.

End AgentTables.

(** The configuration of the sample plan has one agent resource: the
    table has its address as only key, with the agent made from it. *)
Lemma planAgents_entry_witness :
  planAgents [Sample.plannedAgent] !! "coder_agent.dev" =
  Some (planAgent Sample.plannedAgent).
Proof.
  destruct (planAgents_entry [Sample.plannedAgent]) as [_ Hentry].
  apply (Hentry [] Sample.plannedAgent []); [reflexivity|reflexivity|constructor].
Defined.

(** The agent of the sample plan has no id, no environment and no
    startup script. *)
Lemma planAgents_fields_witness :
  ∃ resource,
    resource ∈ [Sample.plannedAgent] ∧
    ConfigResource_Address resource = "coder_agent.dev" ∧
    Agent_Id (planAgent Sample.plannedAgent) = "" ∧
    Agent_Env (planAgent Sample.plannedAgent) =
      match ConfigResource_Expressions resource !! "env" with
      | Some envRaw =>
          match Expression_ConstantValue envRaw with
          | GoMapStringString env => env
          | _ => ∅
          end
      | None => ∅
      end ∧
    Agent_StartupScript (planAgent Sample.plannedAgent) =
      match ConfigResource_Expressions resource !! "startup_script" with
      | Some startupScriptRaw =>
          match Expression_ConstantValue startupScriptRaw with
          | GoString startupScript => startupScript
          | _ => ""
          end
      | None => ""
      end.
Proof.
  apply (planAgents_fields [Sample.plannedAgent] "coder_agent.dev"
           (planAgent Sample.plannedAgent)).
  reflexivity.
Defined.

(** The state of the sample has one agent resource, whose attributes
    decode: the table has the entry made from them under its key. *)
Lemma applyAgents_entry_witness :
  ∃ attrs,
    @mapstructure_Decode Sample.externals
      (StateResource_AttributeValues Sample.appliedAgent) = inr attrs ∧
    ({[ "coder_agent.dev" := Sample.appliedAgentEntry ]} : gmap string Agent)
      !! resourceKey Sample.appliedAgent = Some (applyAgent attrs).
Proof.
  destruct (@applyAgents_entry Sample.externals [Sample.appliedAgent]
              {[ "coder_agent.dev" := Sample.appliedAgentEntry ]} eq_refl)
    as [_ Hentry].
  apply (Hentry [] Sample.appliedAgent []); [reflexivity|reflexivity|constructor].
Defined.

(** *** The entries of the dependency map *)

Section GraphEntries.

Context `{Externals}.

Lemma trimLeftByte_first (s : string) (c : ascii) :
  Strings.firstByte (Strings.trimLeftByte s c) ≠ Some c.
Proof.
  induction s as [|a r IH]; simpl; [done|].
  destruct (Ascii.eqb_spec a c); [done|]. simpl. congruence.
Qed.

Lemma lastByte_cons (a : ascii) (r : string) :
  Strings.lastByte (String a r) ≠ None.
Proof. simpl. by destruct (Strings.lastByte r). Qed.

Lemma trimRightByte_last (s : string) (c : ascii) :
  Strings.lastByte (Strings.trimRightByte s c) ≠ Some c.
Proof.
  induction s as [|a r IH]; [done|].
  cbn [Strings.trimRightByte].
  destruct (Strings.trimRightByte r c) as [|b r'].
  - destruct (Ascii.eqb_spec a c); simpl; congruence.
  - change (Strings.lastByte (String a (String b r')))
      with (match Strings.lastByte (String b r') with
            | None => Some a
            | Some d => Some d
            end).
    pose proof (lastByte_cons b r') as Hsome.
    by destruct (Strings.lastByte (String b r')).
Qed.

Lemma trimLeftByte_last (s : string) (c d : ascii) :
  Strings.lastByte (Strings.trimLeftByte s c) = Some d →
  Strings.lastByte s = Some d.
Proof.
  induction s as [|a r IH]; [done|].
  cbn [Strings.trimLeftByte]. destruct (Ascii.eqb a c); [|done].
  intros Hlast. simpl. by rewrite (IH Hlast).
Qed.

Lemma trimLabel_unquoted (label : string) : unquoted (trimLabel label).
Proof.
  unfold unquoted, trimLabel, Strings.Trim. split.
  - apply trimLeftByte_first.
  - intros Hlast. apply trimLeftByte_last in Hlast.
    by apply trimRightByte_last in Hlast.
Qed.

Lemma labelOf_unquoted (node : Node) (key : string) :
  labelOf node = Some key → unquoted key.
Proof.
  unfold labelOf. destruct (Node_Attrs node !! "label"); simpl; [|done].
  intros [= <-]. apply trimLabel_unquoted.
Qed.

Lemma direct_values (graph : Graph) (nodes : list Node)
    (direct : gmap string (list string)) (key : string)
    (dependencies : list string) :
  foldl (directStep graph) direct nodes !! key = Some dependencies →
  direct !! key = Some dependencies ∨
  ∃ node, node ∈ nodes ∧ labelOf node = Some key ∧
          dependencies ≡ₚ neighbourLabels graph node.
Proof.
  revert direct. induction nodes as [|node nodes IH]; intros direct; simpl;
    [by left|].
  intros Hlook. apply IH in Hlook as [Hstep|(later & Hin & Hlater)].
  - rewrite directStep_lookup in Hstep. case_decide as Hhere; [|by left].
    right. exists node. injection Hstep as <-.
    split; [apply list_elem_of_here|]. split; [done|apply dependencies_spec].
  - right. exists later. split; [by apply list_elem_of_further|done].
Qed.

Lemma neighbourLabels_source (graph : Graph) (node : Node) (dependency : string) :
  dependency ∈ neighbourLabels graph node →
  ∃ name neighbour,
    Graph_Nodes_Lookup graph !! name = Some neighbour ∧
    labelOf neighbour = Some dependency.
Proof.
  unfold neighbourLabels. rewrite list_elem_of_omap. intros (name & _ & Hname).
  destruct (Graph_Nodes_Lookup graph !! name) as [neighbour|] eqn:Hlook;
    simpl in Hname; [|done].
  by exists name, neighbour.
Qed.

(** X10: no key of the dependency map and no dependency listed in it
    begins or ends with a double quote: the quotes the graph text puts
    around a label never reach the keys the correlator looks up. *)
Theorem findDirectDependencies_unquoted (rawGraph : string)
    (direct : gmap string (list string)) :
  findDirectDependencies rawGraph = inr direct →
  ∀ key dependencies,
    direct !! key = Some dependencies →
    unquoted key ∧ Forall unquoted dependencies.
Proof.
  unfold findDirectDependencies.
  destruct (gographviz_ParseString rawGraph) as [|parsedGraph]; [done|].
  destruct (gographviz_NewAnalysedGraph parsedGraph) as [|graph]; [done|].
  intros [= <-] key dependencies Hlook.
  apply direct_values in Hlook as [Hempty|(node & _ & Hlabel & Hdeps)];
    [by rewrite lookup_empty in Hempty|].
  split; [by apply (labelOf_unquoted node)|].
  rewrite Hdeps. apply Forall_forall. intros dependency Hin.
  apply neighbourLabels_source in Hin as (name & neighbour & _ & Hneighbour).
  by apply (labelOf_unquoted neighbour).
Qed.

(** X11: when every node of the graph's lookup table is in its node
    list, the dependency map is closed: every dependency listed in an
    entry is itself a key of the map. *)
Theorem findDirectDependencies_closed (rawGraph : string)
    (parsedGraph : ast_Graph) (graph : Graph)
    (direct : gmap string (list string)) :
  gographviz_ParseString rawGraph = inr parsedGraph →
  gographviz_NewAnalysedGraph parsedGraph = inr graph →
  lookupListed graph →
  findDirectDependencies rawGraph = inr direct →
  ∀ key dependencies dependency,
    direct !! key = Some dependencies →
    dependency ∈ dependencies →
    is_Some (direct !! dependency).
Proof.
  unfold findDirectDependencies. intros -> -> Hlisted [= <-].
  intros key dependencies dependency Hlook Hin.
  apply direct_values in Hlook as [Hempty|(node & _ & _ & Hdeps)];
    [by rewrite lookup_empty in Hempty|].
  rewrite Hdeps in Hin.
  apply neighbourLabels_source in Hin as (name & neighbour & Hname & Hneighbour).
  apply direct_keys. right. exists neighbour. split; [|done].
  by apply (Hlisted name).
Qed.

End GraphEntries.

Lemma twins_lookupListed : lookupListed Sample.twins.
Proof.
  intros name node Hlook. unfold Sample.twins in *. simpl in *.
  apply lookup_insert_Some in Hlook as [[_ <-]|[_ Hlook]];
    [apply list_elem_of_here|].
  apply lookup_insert_Some in Hlook as [[_ <-]|[_ Hlook]];
    [apply list_elem_of_further, list_elem_of_here|].
  apply lookup_singleton_Some in Hlook as [_ <-].
  apply list_elem_of_further, list_elem_of_further, list_elem_of_here.
Qed.

(** In the map of the graph [twins], the key [y] and its dependency [x]
    carry no quotes. *)
Lemma findDirectDependencies_unquoted_witness :
  unquoted "y" ∧ Forall unquoted ["x"].
Proof.
  apply (@findDirectDependencies_unquoted Sample.externals Sample.twinsText
           Sample.twinsDirect eq_refl "y" ["x"]).
  reflexivity.
Defined.

(** In the map of the graph [twins], the dependency [x] of the key [y]
    is a key. *)
Lemma findDirectDependencies_closed_witness :
  is_Some (Sample.twinsDirect !! "x").
Proof.
  apply (@findDirectDependencies_closed Sample.externals Sample.twinsText
           Sample.twins Sample.twins Sample.twinsDirect
           eq_refl eq_refl twins_lookupListed eq_refl "y" ["x"] "x");
    [reflexivity|apply list_elem_of_here].
Defined.

(** *** The outcomes of a session *)

Section SessionOutcomes.

Context `{Externals}.

Ltac proc_unfold :=
  unfold external, externalErr, emit, returnSend, Return, call, result;
  cbn [mbind Proc_bind mret Proc_ret].

Lemma routeParameters_routed (params : list ParameterValue)
    (env vars env' vars' : list string) :
  routeParameters params env vars = inr (env', vars') →
  forallb isSupported params = true.
Proof.
  intros Hroute. destruct (forallb isSupported params) eqn:Hall; [done|].
  destruct (routeParameters_unsupported params env vars Hall)
    as (before & bad & after & _ & _ & _ & Hbad).
  congruence.
Qed.

Lemma preparation_quiet (t : terraform) (start : Provision_Start) :
  sent (preparation t start) = [] ∧
  invoked (preparation t start) = [] ∧
  Forall (λ ev, readsState ev = false) (preparation t start).
Proof.
  unfold preparation.
  destruct (0 <? length (Start_State start))%nat,
    (negb (String.eqb (cachePath t) "")); cbn; repeat split; repeat constructor.
Qed.

Lemma prefix_quiet (t : terraform) (start : Provision_Start)
    (trace : list Event) :
  trace `prefix_of` preparation t start →
  sent trace = [] ∧ invoked trace = [] ∧
  Forall (λ ev, readsState ev = false) trace.
Proof.
  intros [rest Hrest].
  destruct (preparation_quiet t start) as (Hsent & Hinvoked & Hreads).
  rewrite Hrest in Hsent, Hinvoked, Hreads.
  rewrite sent_app in Hsent. rewrite invoked_app in Hinvoked.
  apply app_nil in Hsent as [Hsent _]. apply app_nil in Hinvoked as [Hinvoked _].
  apply Forall_app in Hreads as [Hreads _]. done.
Qed.

Lemma routeParameters_error (params : list ParameterValue)
    (env vars : list string) (err : error) :
  routeParameters params env vars = inl err →
  ∀ text, err ≠ Foreign text.
Proof.
  revert env vars. induction params as [|param params IH]; intros env vars;
    [done|].
  cbn [routeParameters].
  destruct (ParameterValue_DestinationScheme param); [apply IH|apply IH|].
  by intros [= <-].
Qed.

(** A started session either fails in one of the steps of lines 54-128,
    with an error built by the program and a trace that is a prefix of
    the preparation, or is prepared with its parameters routed. *)
Lemma Provision_started (t : terraform) (w : World) (start : Provision_Start) :
  stream_Recv w = inr (Provision_Request_Start start) →
  (∃ err, (result (Provision t w)).1 = Some err ∧
          (result (Provision t w)).2 `prefix_of` preparation t start ∧
          ∀ text, err ≠ Foreign text) ∨
  (∃ env vars,
     prepared t w start ∧
     routeParameters (Start_ParameterValues start) (baseEnv w start) [] =
       inr (env, vars)).
Proof.
  intros Hrecv. unfold Provision, preparation. rewrite Hrecv. proc_unfold.
  destruct (0 <? length (Start_State start))%nat eqn:Hstate;
    [destruct (os_WriteFile w _ _) eqn:Hwrite;
     [left; cbn; eexists; split; [reflexivity|];
      split; [eexists; reflexivity|done]|]|];
    (destruct (tfexec_NewTerraform w _ _) eqn:Hnew;
     [left; cbn; eexists; split; [reflexivity|];
      split; [eexists; reflexivity|done]|]);
    (destruct (terraform_Version w) as [|version] eqn:Hversion;
     [left; cbn; eexists; split; [reflexivity|];
      split; [eexists; reflexivity|done]|]);
    cbn [mbind Proc_bind mret Proc_ret];
    (destruct (negb (Version_GreaterThanOrEqual version minimumTerraformVersion))
       eqn:Hmin;
     [left; cbn; eexists; split; [reflexivity|];
      split; [eexists; reflexivity|done]|]);
    (destruct (negb (String.eqb (cachePath t) "")) eqn:Hcache;
     [destruct (terraform_SetEnv w) eqn:Hset;
      [left; cbn; eexists; split; [reflexivity|];
       split; [eexists; reflexivity|done]|]|]);
    (destruct (terraform_Init w) eqn:Hinit;
     [left; cbn; eexists; split; [reflexivity|];
      split; [eexists; reflexivity|done]|]);
    (destruct (routeParameters _ _ _) as [err|[env vars]] eqn:Hroute;
     [left; cbn; eexists; split; [reflexivity|];
      split; [eexists; reflexivity|by eapply routeParameters_error]|]);
    right; exists env, vars; (split; [|done]);
    (split; [done|]); (split; [intros; congruence|]); (split; [done|]);
    (split; [exists version; split; [done|by apply negb_false_iff]|]);
    (split; [intros; congruence|done]).
Qed.

(** The events of a prepared session: the preparation, the engine
    command, and what [afterRun] does. *)
Lemma Provision_prepared_trace (t : terraform) (w : World)
    (start : Provision_Start) (env vars : list string) :
  prepared t w start →
  routeParameters (Start_ParameterValues start) (baseEnv w start) [] =
    inr (env, vars) →
  result (Provision t w) =
  let args := engineArgs start
                (filepath_Join (Start_Directory start) "terraform.tfplan")
                vars in
  let rest := result (afterRun w start
                (filepath_Join (Start_Directory start) "terraform.tfstate")
                (filepath_Join (Start_Directory start) "terraform.tfplan")
                (cmd_Run w args env)) in
  (rest.1,
   preparation t start ++
   EvRun (binaryPath t) args env (Start_Directory start) :: rest.2).
Proof.
  intros (Hrecv & Hwrite & Hnew & (version & Hversion & Hmin) & Hcache & Hinit)
    Hroute.
  unfold Provision, preparation. rewrite Hrecv. proc_unfold.
  rewrite Hnew, Hversion. cbn [mbind Proc_bind mret Proc_ret].
  rewrite Hmin, Hinit, Hroute. cbn [mbind Proc_bind mret Proc_ret negb].
  destruct (afterRun _ _ _ _ _) as [[r|[]] post].
  destruct (0 <? length (Start_State start))%nat eqn:Hstate;
    [rewrite (Hwrite eq_refl)|];
    (destruct (negb (String.eqb (cachePath t) "")) eqn:Hc;
     [rewrite (Hcache eq_refl)|]);
    cbn; done.
Qed.

Lemma parseTerraformPlan_shape (w : World) (planfilePath : string) :
  sent (result (parseTerraformPlan w planfilePath)).2 = [] ∧
  Forall (λ ev, readsState ev = false)
    (result (parseTerraformPlan w planfilePath)).2 ∧
  ∀ response,
    (result (parseTerraformPlan w planfilePath)).1 = inr response →
    ∃ resources, response = completeResponse [] "" (Some resources).
Proof.
  unfold parseTerraformPlan. proc_unfold.
  destruct (terraform_ShowPlanFile w planfilePath); cbn;
    [repeat split; [repeat constructor|done]|].
  destruct (terraform_Graph w); cbn;
    [repeat split; [repeat constructor|done]|].
  destruct (findDirectDependencies _); cbn;
    (repeat split; [repeat constructor|]); [done|].
  intros response [= <-]. by eexists.
Qed.

Lemma parseTerraformApply_shape (w : World) (statefilePath : string) :
  sent (result (parseTerraformApply w statefilePath)).2 = [] ∧
  ∀ response,
    (result (parseTerraformApply w statefilePath)).1 = inr response →
    ∃ statefileContent resources,
      os_ReadFile w statefilePath = inr statefileContent ∧
      response = completeResponse statefileContent "" (Some resources).
Proof.
  unfold parseTerraformApply. proc_unfold.
  destruct (os_ReadFile w statefilePath) as [|statefileContent]; cbn; [done|].
  destruct (terraform_ShowStateFile w statefilePath) as [|state]; cbn; [done|].
  destruct (State_Values state); cbn.
  - destruct (terraform_Graph w); cbn; [done|].
    destruct (findDirectDependencies _); cbn; [done|].
    destruct (applyAgents _ _); cbn; [done|].
    split; [done|]. intros response [= <-]. by eexists _, _.
  - split; [done|]. intros response [= <-]. by eexists _, _.
Qed.

(** What [afterRun] leaves: an error with nothing sent, or one
    completion, sent last, whose send decides the result. *)
Lemma afterRun_outcome (w : World) (start : Provision_Start)
    (statefilePath planfilePath : string) (runErr : option string) :
  (∃ err,
     (result (afterRun w start statefilePath planfilePath runErr)).1 = Some err ∧
     sent (result (afterRun w start statefilePath planfilePath runErr)).2 = []) ∨
  (∃ pre complete,
     (result (afterRun w start statefilePath planfilePath runErr)).2 =
       pre ++ [EvSend (Provision_Response_Complete complete)] ∧
     sent pre = [] ∧
     (result (afterRun w start statefilePath planfilePath runErr)).1 =
       Foreign <$> stream_Send w (Provision_Response_Complete complete)).
Proof.
  unfold afterRun. destruct runErr as [errText|], (Start_DryRun start).
  - destruct (shutdown_Err w).
    + right. by exists [], {| Complete_State := []; Complete_Error := errText;
                              Complete_Resources := None |}.
    + left. by eexists.
  - proc_unfold. destruct (os_ReadFile w statefilePath) as [|statefileContent]; cbn.
    + left. by eexists.
    + right. by exists [EvReadFile statefilePath],
               {| Complete_State := statefileContent; Complete_Error := errText;
                  Complete_Resources := None |}.
  - destruct (parseTerraformPlan_shape w planfilePath) as (Hsent & _ & Hshape).
    rewrite call_eq.
    destruct (result (parseTerraformPlan w planfilePath)) as [[err|response] trace].
    + left. exists err. cbn in *. by rewrite app_nil_r.
    + right. destruct (Hshape response eq_refl) as [resources ->].
      exists trace, {| Complete_State := []; Complete_Error := "";
                       Complete_Resources := Some resources |}. by cbn in *.
  - destruct (parseTerraformApply_shape w statefilePath) as (Hsent & Hshape).
    rewrite call_eq.
    destruct (result (parseTerraformApply w statefilePath)) as [[err|response] trace].
    + left. exists err. cbn in *. by rewrite app_nil_r.
    + right. destruct (Hshape response eq_refl) as (content & resources & _ & ->).
      exists trace, {| Complete_State := content; Complete_Error := "";
                       Complete_Resources := Some resources |}. by cbn in *.
Qed.

(** The outcomes of a session: it was not started; or it returns an
    error and has sent nothing; or it has sent one completion, last, and
    returns what the send returns. *)
Lemma Provision_outcome (t : terraform) (w : World) :
  (∃ request,
     stream_Recv w = inr request ∧
     (∀ start, request ≠ Provision_Request_Start start) ∧
     result (Provision t w) = (None, [EvRecv])) ∨
  (∃ err, (result (Provision t w)).1 = Some err ∧
          sent (result (Provision t w)).2 = []) ∨
  (∃ pre complete,
     (result (Provision t w)).2 =
       pre ++ [EvSend (Provision_Response_Complete complete)] ∧
     sent pre = [] ∧
     (result (Provision t w)).1 =
       Foreign <$> stream_Send w (Provision_Response_Complete complete)).
Proof.
  destruct (stream_Recv w) as [text|[start| |]] eqn:Hrecv.
  - right. left. unfold Provision. rewrite Hrecv. by eexists.
  - destruct (Provision_started t w start Hrecv)
      as [(err & Herr & Hprefix & _)|(env & vars & Hprepared & Hroute)].
    + right. left. exists err. split; [done|].
      by destruct (prefix_quiet t start _ Hprefix) as (-> & _).
    + rewrite (Provision_prepared_trace t w start env vars Hprepared Hroute).
      cbn zeta. cbn [fst snd].
      destruct (preparation_quiet t start) as (Hquiet & _).
      destruct (afterRun_outcome w start
                  (filepath_Join (Start_Directory start) "terraform.tfstate")
                  (filepath_Join (Start_Directory start) "terraform.tfplan")
                  (cmd_Run w
                     (engineArgs start
                        (filepath_Join (Start_Directory start) "terraform.tfplan")
                        vars) env))
        as [(err & Herr & Hsent)|(pre & complete & Htrace & Hpre & Hresult)].
      * right. left. exists err. split; [done|].
        rewrite sent_app, Hquiet. cbn. exact Hsent.
      * right. right.
        exists (preparation t start ++
                EvRun (binaryPath t)
                  (engineArgs start
                     (filepath_Join (Start_Directory start) "terraform.tfplan")
                     vars) env (Start_Directory start) :: pre), complete.
        rewrite Htrace. split; [by rewrite <- app_assoc|]. split; [|done].
        rewrite sent_app, Hquiet. cbn. exact Hpre.
  - left. exists Provision_Request_Cancel. unfold Provision. rewrite Hrecv.
    by repeat split.
  - left. exists Provision_Request_none. unfold Provision. rewrite Hrecv.
    by repeat split.
Qed.

End SessionOutcomes.

(** *** Invariants of a session *)

Section SessionInvariants.

Context `{Externals}.

Ltac proc_unfold :=
  unfold external, externalErr, emit, returnSend, Return, call, result;
  cbn [mbind Proc_bind mret Proc_ret].

Lemma Provision_not_started (t : terraform) (w : World)
    (request : Provision_Request) :
  stream_Recv w = inr request →
  (∀ start, request ≠ Provision_Request_Start start) →
  result (Provision t w) = (None, [EvRecv]).
Proof.
  intros Hrecv Hnot. unfold Provision. rewrite Hrecv.
  destruct request as [start| |]; [by destruct (Hnot start)|done|done].
Qed.

(** The one engine command of a session, when there is one. *)
Lemma Provision_invoked_inv (t : terraform) (w : World)
    (args env : list string) :
  (args, env) ∈ invoked (result (Provision t w)).2 →
  ∃ start,
    prepared t w start ∧
    forallb isSupported (Start_ParameterValues start) = true ∧
    args = engineArgs start
             (filepath_Join (Start_Directory start) "terraform.tfplan")
             (map assignmentOf
                (filter (λ p, isProvisioner p = true) (Start_ParameterValues start))) ∧
    env = baseEnv w start ++
          map assignmentOf
            (filter (λ p, isEnvironment p = true) (Start_ParameterValues start)).
Proof.
  intros Hin.
  destruct (stream_Recv w) as [text|[start| |]] eqn:Hrecv.
  2: { destruct (Provision_started t w start Hrecv)
         as [(err & _ & Hprefix & _)|(env' & vars' & Hprepared & Hroute)].
       - destruct (prefix_quiet t start _ Hprefix) as (_ & Hquiet & _).
         rewrite Hquiet in Hin. by apply elem_of_nil in Hin.
       - pose proof (routeParameters_routed _ _ _ _ _ Hroute) as Hall.
         rewrite (routeParameters_supported _ _ _ Hall) in Hroute.
         injection Hroute as <- <-.
         rewrite (Provision_invokes t w start _ _ Hprepared
                    (routeParameters_supported _ _ _ Hall)) in Hin.
         apply list_elem_of_singleton in Hin. injection Hin as -> ->.
         exists start. split; [done|]. split; [done|]. by split. }
  all: unfold Provision in Hin; rewrite Hrecv in Hin; cbn in Hin;
    by apply elem_of_nil in Hin.
Qed.

(** What a completion sent by [afterRun] carries. *)
Lemma afterRun_completion (w : World) (start : Provision_Start)
    (statefilePath planfilePath : string) (runErr : option string)
    (complete : Provision_Complete) :
  Provision_Response_Complete complete ∈
    sent (result (afterRun w start statefilePath planfilePath runErr)).2 →
  ((runErr = Some (Complete_Error complete) ∧ Complete_Resources complete = None) ∨
   (runErr = None ∧ Complete_Error complete = "" ∧
    is_Some (Complete_Resources complete))) ∧
  (Start_DryRun start = true → Complete_State complete = []) ∧
  (Start_DryRun start = false →
   os_ReadFile w statefilePath = inr (Complete_State complete)).
Proof.
  unfold afterRun. destruct runErr as [errText|], (Start_DryRun start).
  - destruct (shutdown_Err w); cbn; intros Hin; [|by apply elem_of_nil in Hin].
    apply list_elem_of_singleton in Hin. injection Hin as ->. cbn.
    split; [by left|]. by split.
  - proc_unfold.
    destruct (os_ReadFile w statefilePath) as [|statefileContent] eqn:Hread; cbn;
      intros Hin; [by apply elem_of_nil in Hin|].
    apply list_elem_of_singleton in Hin. injection Hin as ->. cbn.
    split; [by left|]. by split.
  - destruct (parseTerraformPlan_shape w planfilePath) as (Hsent & _ & Hshape).
    rewrite call_eq.
    destruct (result (parseTerraformPlan w planfilePath)) as [[err|response] trace];
      cbn [fst snd] in *; do 2 proc_unfold; cbn [fst snd].
    + rewrite sent_app, Hsent. intros Hin. cbn in Hin. by apply elem_of_nil in Hin.
    + destruct (Hshape response eq_refl) as [resources ->].
      rewrite sent_app, Hsent. cbn. intros Hin.
      apply list_elem_of_singleton in Hin. injection Hin as ->. cbn.
      split; [right; by repeat split|]. by split.
  - destruct (parseTerraformApply_shape w statefilePath) as (Hsent & Hshape).
    rewrite call_eq.
    destruct (result (parseTerraformApply w statefilePath)) as [[err|response] trace];
      cbn [fst snd] in *; do 2 proc_unfold; cbn [fst snd].
    + rewrite sent_app, Hsent. intros Hin. cbn in Hin. by apply elem_of_nil in Hin.
    + destruct (Hshape response eq_refl) as (content & resources & Hread & ->).
      rewrite sent_app, Hsent. cbn. intros Hin.
      apply list_elem_of_singleton in Hin. injection Hin as ->. cbn.
      split; [right; by repeat split|]. by split.
Qed.

Lemma afterRun_dry (w : World) (start : Provision_Start)
    (statefilePath planfilePath : string) (runErr : option string) :
  Start_DryRun start = true →
  Forall (λ ev, readsState ev = false)
    (result (afterRun w start statefilePath planfilePath runErr)).2.
Proof.
  intros Hdry. unfold afterRun. rewrite Hdry. destruct runErr as [errText|].
  - destruct (shutdown_Err w); cbn; repeat constructor.
  - destruct (parseTerraformPlan_shape w planfilePath) as (_ & Hreads & _).
    rewrite call_eq.
    destruct (result (parseTerraformPlan w planfilePath)) as [[err|response] trace];
      cbn [fst snd] in *; do 2 proc_unfold; cbn [fst snd];
      (apply Forall_app; split; [done|repeat constructor]).
Qed.

(** A completion sent in a started session is sent by [afterRun] in a
    prepared one. *)
Lemma Provision_completion (t : terraform) (w : World) (start : Provision_Start)
    (response : Provision_Response) :
  stream_Recv w = inr (Provision_Request_Start start) →
  response ∈ sent (result (Provision t w)).2 →
  ∃ env vars,
    prepared t w start ∧
    routeParameters (Start_ParameterValues start) (baseEnv w start) [] =
      inr (env, vars) ∧
    response ∈
      sent (result (afterRun w start
              (filepath_Join (Start_Directory start) "terraform.tfstate")
              (filepath_Join (Start_Directory start) "terraform.tfplan")
              (cmd_Run w
                 (engineArgs start
                    (filepath_Join (Start_Directory start) "terraform.tfplan")
                    vars) env))).2.
Proof.
  intros Hrecv Hin.
  destruct (Provision_started t w start Hrecv)
    as [(err & _ & Hprefix & _)|(env & vars & Hprepared & Hroute)].
  - destruct (prefix_quiet t start _ Hprefix) as (Hquiet & _).
    rewrite Hquiet in Hin. by apply elem_of_nil in Hin.
  - exists env, vars. split; [done|]. split; [done|].
    rewrite (Provision_prepared_trace t w start env vars Hprepared Hroute) in Hin.
    cbn zeta in Hin. cbn [fst snd] in Hin.
    destruct (preparation_quiet t start) as (Hquiet & _).
    rewrite sent_app, Hquiet in Hin. exact Hin.
Qed.

Lemma completions_sent (trace : list Event) :
  sent trace = [] → completions trace = [].
Proof.
  induction trace as [|ev trace IH]; [done|].
  destruct ev as [| | | | | | | | | | | |response]; try exact IH.
  discriminate.
Qed.

(** X12: the engine command is run, and a completion is sent, only in a
    session that received a start request, passed every step of the
    preparation and has only supported parameters; such a session runs
    the command once. *)
Theorem Provision_effects_prepared (t : terraform) (w : World) :
  invoked (result (Provision t w)).2 ≠ [] ∨
  completions (result (Provision t w)).2 ≠ [] →
  ∃ start,
    prepared t w start ∧
    forallb isSupported (Start_ParameterValues start) = true ∧
    length (invoked (result (Provision t w)).2) = 1%nat.
Proof.
  intros Heffect.
  destruct (stream_Recv w) as [text|[start| |]] eqn:Hrecv.
  2: { destruct (Provision_started t w start Hrecv)
         as [(err & _ & Hprefix & _)|(env & vars & Hprepared & Hroute)].
       - destruct (prefix_quiet t start _ Hprefix) as (Hsent & Hinvoked & _).
         rewrite (completions_sent _ Hsent), Hinvoked in Heffect.
         by destruct Heffect.
       - exists start. split; [done|].
         split; [by eapply routeParameters_routed|].
         by rewrite (Provision_invokes t w start env vars). }
  all: exfalso; unfold Provision in Heffect; rewrite Hrecv in Heffect;
    cbn in Heffect; by destruct Heffect.
Qed.

(** X13: whatever the world does, a session runs at most one engine
    command and sends at most one completion; when it sends one, the
    send is the last event of the main goroutine, and the session
    returns what that send returns. *)
Theorem Provision_single_response (t : terraform) (w : World) :
  (length (invoked (result (Provision t w)).2) ≤ 1)%nat ∧
  (completions (result (Provision t w)).2 = [] ∨
   ∃ pre complete,
     (result (Provision t w)).2 =
       pre ++ [EvSend (Provision_Response_Complete complete)] ∧
     completions pre = [] ∧
     completions (result (Provision t w)).2 = [complete] ∧
     (result (Provision t w)).1 =
       Foreign <$> stream_Send w (Provision_Response_Complete complete)).
Proof.
  split.
  - destruct (stream_Recv w) as [text|[start| |]] eqn:Hrecv.
    2: { destruct (Provision_started t w start Hrecv)
           as [(err & _ & Hprefix & _)|(env & vars & Hprepared & Hroute)].
         - destruct (prefix_quiet t start _ Hprefix) as (_ & -> & _). simpl. lia.
         - rewrite (Provision_invokes t w start env vars Hprepared Hroute).
           simpl. lia. }
    all: unfold Provision; rewrite Hrecv; cbn; lia.
  - destruct (Provision_outcome t w)
      as [(request & _ & _ & ->)|
          [(err & _ & Hsent)|(pre & complete & Htrace & Hpre & Hresult)]];
      [by left|left; by apply completions_sent|].
    right. exists pre, complete. split; [done|].
    split; [by apply completions_sent|]. split; [|done].
    rewrite Htrace. unfold completions. rewrite omap_app.
    fold (completions pre). by rewrite (completions_sent pre Hpre).
Qed.

(** X14: a session returns [nil] in two cases only: its first message
    was not a start request, or it sent a completion and the send
    succeeded.  A started session never ends without an error or a
    delivered completion. *)
Theorem Provision_nil_return (t : terraform) (w : World) :
  (result (Provision t w)).1 = None ↔
  (∃ request,
     stream_Recv w = inr request ∧
     ∀ start, request ≠ Provision_Request_Start start) ∨
  (∃ complete,
     sent (result (Provision t w)).2 = [Provision_Response_Complete complete] ∧
     stream_Send w (Provision_Response_Complete complete) = None).
Proof.
  destruct (Provision_outcome t w)
    as [(request & Hrecv & Hnot & Hresult)|
        [(err & Herr & Hsent)|(pre & complete & Htrace & Hpre & Hresult)]].
  - rewrite Hresult. split; [|done]. intros _. left. by exists request.
  - rewrite Herr, Hsent. split; [done|].
    intros [(request & Hrecv & Hnot)|(complete & Hcomplete & _)]; [|done].
    rewrite (Provision_not_started t w request Hrecv Hnot) in Herr. done.
  - rewrite Hresult, Htrace, sent_app, Hpre. cbn. split.
    + intros Hsend. right. exists complete. split; [done|].
      by apply fmap_None in Hsend.
    + intros [(request & Hrecv & Hnot)|(sentComplete & [= <-] & ->)]; [|done].
      rewrite (Provision_not_started t w request Hrecv Hnot) in Hresult.
      by rewrite <- Hresult.
Qed.

(** X15: with an engine older than the minimum version a started
    session returns an error without initializing, running the engine or
    sending anything; when the steps before the version test succeed,
    the error is the one that names the two versions. *)
Theorem Provision_version_gate (t : terraform) (w : World)
    (start : Provision_Start) (version : Version) :
  stream_Recv w = inr (Provision_Request_Start start) →
  terraform_Version w = inr version →
  Version_GreaterThanOrEqual version minimumTerraformVersion = false →
  (∃ err, (result (Provision t w)).1 = Some err) ∧
  (EvInit ∉ (result (Provision t w)).2) ∧
  invoked (result (Provision t w)).2 = [] ∧
  sent (result (Provision t w)).2 = [] ∧
  (((0 <? length (Start_State start))%nat = true →
    os_WriteFile w (filepath_Join (Start_Directory start) "terraform.tfstate")
      (Start_State start) = None) →
   tfexec_NewTerraform w (Start_Directory start) (binaryPath t) = None →
   (result (Provision t w)).1 =
   Some (Errorf "terraform version %q is too old. required >= %q"
           [ArgString (Version_String version);
            ArgString (Version_String minimumTerraformVersion)])).
Proof.
  intros Hrecv Hversion Hmin. unfold Provision. rewrite Hrecv. proc_unfold.
  rewrite Hversion. cbn [mbind Proc_bind mret Proc_ret]. rewrite Hmin. cbn [negb].
  destruct (0 <? length (Start_State start))%nat eqn:Hstate;
    [destruct (os_WriteFile w _ _) eqn:Hwrite|];
    (destruct (tfexec_NewTerraform w _ _) eqn:Hnew); cbn;
    (split; [by eexists|]);
    (split;
     [intros Hin;
      repeat (apply elem_of_cons in Hin as [Hin|Hin]; [discriminate|]);
      by apply elem_of_nil in Hin|]);
    (split; [done|]); (split; [done|]);
    intros Hw Hn; try discriminate; try (specialize (Hw eq_refl); discriminate);
    reflexivity.
Qed.

(** X16: in a prepared session whose engine command succeeds, the
    artifact is parsed, the plan for a dry run and the state for a real
    run.  When the parser fails the session returns its error and sends
    nothing; otherwise it sends the parser's response as its last event
    and returns what the send returns. *)
Theorem Provision_success (t : terraform) (w : World) (start : Provision_Start)
    (env vars : list string) :
  prepared t w start →
  routeParameters (Start_ParameterValues start) (baseEnv w start) [] =
    inr (env, vars) →
  cmd_Run w
    (engineArgs start (filepath_Join (Start_Directory start) "terraform.tfplan")
       vars) env = None →
  let command :=
    EvRun (binaryPath t)
      (engineArgs start (filepath_Join (Start_Directory start) "terraform.tfplan")
         vars) env (Start_Directory start) in
  let parsed :=
    result (if Start_DryRun start
            then parseTerraformPlan w
                   (filepath_Join (Start_Directory start) "terraform.tfplan")
            else parseTerraformApply w
                   (filepath_Join (Start_Directory start) "terraform.tfstate")) in
  result (Provision t w) =
  match parsed.1 with
  | inl err => (Some err, preparation t start ++ command :: parsed.2)
  | inr response =>
      (Foreign <$> stream_Send w response,
       preparation t start ++ command :: parsed.2 ++ [EvSend response])
  end.
Proof.
  intros Hprepared Hroute Hrun.
  rewrite (Provision_prepared_trace t w start env vars Hprepared Hroute).
  cbn zeta. rewrite Hrun. unfold afterRun.
  destruct (Start_DryRun start); rewrite call_eq.
  - destruct (result (parseTerraformPlan w _)) as [[err|response] trace]; cbn;
      by rewrite ?app_nil_r.
  - destruct (result (parseTerraformApply w _)) as [[err|response] trace]; cbn;
      by rewrite ?app_nil_r.
Qed.

(** X17: a started dry run never reads the state file, from the disk or
    through the engine, and a completion it sends carries no state. *)
Theorem Provision_dry_run_stateless (t : terraform) (w : World)
    (start : Provision_Start) :
  stream_Recv w = inr (Provision_Request_Start start) →
  Start_DryRun start = true →
  Forall (λ ev, readsState ev = false) (result (Provision t w)).2 ∧
  ∀ complete,
    Provision_Response_Complete complete ∈ sent (result (Provision t w)).2 →
    Complete_State complete = [].
Proof.
  intros Hrecv Hdry. split.
  - destruct (Provision_started t w start Hrecv)
      as [(err & _ & Hprefix & _)|(env & vars & Hprepared & Hroute)].
    + by destruct (prefix_quiet t start _ Hprefix) as (_ & _ & Hreads).
    + rewrite (Provision_prepared_trace t w start env vars Hprepared Hroute).
      cbn zeta. cbn [fst snd].
      destruct (preparation_quiet t start) as (_ & _ & Hreads).
      apply Forall_app. split; [done|]. constructor; [done|].
      by apply afterRun_dry.
  - intros complete Hin.
    destruct (Provision_completion t w start _ Hrecv Hin)
      as (env & vars & _ & _ & Hafter).
    destruct (afterRun_completion _ _ _ _ _ _ Hafter) as (_ & Hstate & _).
    by apply Hstate.
Qed.


(** X19: a completion sent in a started session is of one of two kinds:
    the engine command failed, and the completion carries the text of
    its error and no resource list; or the command succeeded, and the
    completion carries no error and a resource list, possibly empty but
    not [nil]. *)
Theorem Provision_completion_kinds (t : terraform) (w : World)
    (start : Provision_Start) (complete : Provision_Complete) :
  stream_Recv w = inr (Provision_Request_Start start) →
  Provision_Response_Complete complete ∈ sent (result (Provision t w)).2 →
  ∃ args env,
    invoked (result (Provision t w)).2 = [(args, env)] ∧
    ((cmd_Run w args env = Some (Complete_Error complete) ∧
      Complete_Resources complete = None) ∨
     (cmd_Run w args env = None ∧
      Complete_Error complete = "" ∧
      is_Some (Complete_Resources complete))).
Proof.
  intros Hrecv Hin.
  destruct (Provision_completion t w start _ Hrecv Hin)
    as (env & vars & Hprepared & Hroute & Hafter).
  destruct (afterRun_completion _ _ _ _ _ _ Hafter) as (Hkind & _ & _).
  eexists _, env. split; [by apply Provision_invokes|]. exact Hkind.
Qed.

Lemma baseEnv_fold (pairs : list (string * string)) (env : list string) :
  foldl (λ env '(key, value), env ++ [key +:+ "=" +:+ value]) env pairs =
  env ++ map (λ '(key, value), key +:+ "=" +:+ value) pairs.
Proof.
  revert env. induction pairs as [|[key value] pairs IH]; intros env; simpl.
  - by rewrite app_nil_r.
  - by rewrite IH, <- app_assoc.
Qed.

(** X20: the environment of the engine command is the inherited
    environment, unchanged and first, then the four [CODER_] variables
    of the metadata, then the variables of the agent script, then one
    [NAME=VALUE] for each parameter of the environment scheme, in the
    order of the request; for the three declared transitions the
    transition variable reads [start], [stop] or [destroy]. *)
Theorem Provision_environment (t : terraform) (w : World)
    (args env : list string) :
  (args, env) ∈ invoked (result (Provision t w)).2 →
  ∃ start,
    stream_Recv w = inr (Provision_Request_Start start) ∧
    env =
      os_Environ w ++
      ["CODER_URL=" +:+ Metadata_CoderUrl (Start_Metadata start);
       "CODER_WORKSPACE_TRANSITION=" +:+
         Strings.ToLower unicodeLower
           (WorkspaceTransition_String
              (Metadata_WorkspaceTransition (Start_Metadata start)));
       "CODER_WORKSPACE_NAME=" +:+ Metadata_WorkspaceName (Start_Metadata start);
       "CODER_WORKSPACE_OWNER=" +:+ Metadata_WorkspaceOwner (Start_Metadata start)] ++
      map (λ '(key, value), key +:+ "=" +:+ value) (AgentScriptEnv w) ++
      map assignmentOf
        (filter (λ p, isEnvironment p = true) (Start_ParameterValues start)) ∧
    match Metadata_WorkspaceTransition (Start_Metadata start) with
    | WorkspaceTransition_START => "CODER_WORKSPACE_TRANSITION=start" ∈ env
    | WorkspaceTransition_STOP => "CODER_WORKSPACE_TRANSITION=stop" ∈ env
    | WorkspaceTransition_DESTROY => "CODER_WORKSPACE_TRANSITION=destroy" ∈ env
    | WorkspaceTransition_other _ => True
    end.
Proof.
  intros Hin.
  destruct (Provision_invoked_inv t w args env Hin)
    as (start & (Hrecv & _) & _ & _ & ->).
  exists start. split; [done|].
  unfold baseEnv. rewrite baseEnv_fold, <- !app_assoc. split; [done|].
  destruct (Metadata_WorkspaceTransition (Start_Metadata start)); [| | |done];
    apply elem_of_app; right; apply elem_of_app; left;
    apply list_elem_of_further, list_elem_of_here.
Qed.

Lemma hasByte_append (a b : string) (c : ascii) :
  Strings.hasByte (a +:+ b) c = Strings.hasByte a c || Strings.hasByte b c.
Proof.
  induction a as [|x a IH]; simpl; [done|]. by rewrite IH, orb_assoc.
Qed.

Lemma assignment_hasByte (name value : string) :
  Strings.hasByte (assignment name value) "="%char = true.
Proof.
  unfold assignment. rewrite !hasByte_append. cbn.
  by destruct (Strings.hasByte name "="%char).
Qed.

Lemma flag_in_vars (flag : string) (vars : list string) :
  Strings.hasByte flag "="%char = false →
  flag ≠ "-var" →
  Forall (λ variable, Strings.hasByte variable "="%char = true) vars →
  flag ∉ flat_map (λ variable, ["-var"; variable]) vars.
Proof.
  intros Hflag Hvar Hall. induction Hall as [|variable vars Hvariable _ IH]; simpl.
  - apply not_elem_of_nil.
  - rewrite !not_elem_of_cons. split; [done|]. split; [|done].
    intros ->. congruence.
Qed.

Lemma assignments_hasByte (params : list ParameterValue) :
  Forall (λ variable, Strings.hasByte variable "="%char = true)
    (map assignmentOf params).
Proof.
  induction params as [|param params IH]; simpl; constructor; [|done].
  apply assignment_hasByte.
Qed.

Ltac refute_member H :=
  repeat (apply elem_of_cons in H as [H|H]; [cbn in H; discriminate H|]);
  by apply elem_of_nil in H.

(** X21: the flags of the engine command are decided by the request
    alone: the command is [plan] for a dry run and [apply] otherwise,
    [-auto-approve] is passed exactly in a real run, and [-destroy]
    exactly when the workspace is being destroyed.  No parameter name or
    value can add or remove one of them, since every argument made from
    a parameter is [-var] or contains an equals sign. *)
Theorem Provision_flags (t : terraform) (w : World) (args env : list string) :
  (args, env) ∈ invoked (result (Provision t w)).2 →
  ∃ start,
    stream_Recv w = inr (Provision_Request_Start start) ∧
    head args = Some (if Start_DryRun start then "plan" else "apply") ∧
    ("-auto-approve" ∈ args ↔ Start_DryRun start = false) ∧
    ("-destroy" ∈ args ↔
     Metadata_WorkspaceTransition (Start_Metadata start) =
     WorkspaceTransition_DESTROY).
Proof.
  intros Hin.
  destruct (Provision_invoked_inv t w args env Hin)
    as (start & (Hrecv & _) & _ & -> & _).
  exists start. split; [done|]. rewrite engineArgs_closed.
  pose proof (assignments_hasByte
                (filter (λ p, isProvisioner p = true) (Start_ParameterValues start)))
    as Hvars.
  split; [by destruct (Start_DryRun start)|]. split.
  - rewrite !elem_of_app. split.
    + intros [Hbase|[Hdestroy|Hvar]].
      * destruct (Start_DryRun start); [refute_member Hbase|done].
      * destruct (Metadata_WorkspaceTransition (Start_Metadata start));
          refute_member Hdestroy.
      * by apply flag_in_vars in Hvar.
    + intros ->. left. do 2 apply list_elem_of_further. apply list_elem_of_here.
  - rewrite !elem_of_app. split.
    + intros [Hbase|[Hdestroy|Hvar]].
      * destruct (Start_DryRun start); refute_member Hbase.
      * destruct (Metadata_WorkspaceTransition (Start_Metadata start));
          [refute_member Hdestroy..|done|refute_member Hdestroy].
      * by apply flag_in_vars in Hvar.
    + intros ->. right. left. apply list_elem_of_here.
Qed.

Lemma applyAgents_error (resources : list StateResource)
    (agents : gmap string Agent) (err : error) :
  applyAgents resources agents = inl err →
  ∀ text, err ≠ Foreign text.
Proof.
  revert agents. induction resources as [|resource resources IH]; intros agents;
    simpl; [done|].
  destruct (negb (String.eqb (StateResource_Type resource) "coder_agent"));
    [apply IH|].
  destruct (mapstructure_Decode (StateResource_AttributeValues resource));
    [by intros [= <-]|apply IH].
Qed.

Lemma parseTerraformPlan_error (w : World) (planfilePath : string) (err : error) :
  (result (parseTerraformPlan w planfilePath)).1 = inl err →
  ∀ text, err ≠ Foreign text.
Proof.
  unfold parseTerraformPlan. proc_unfold.
  destruct (terraform_ShowPlanFile w planfilePath); cbn; [by intros [= <-]|].
  destruct (terraform_Graph w); cbn; [by intros [= <-]|].
  destruct (findDirectDependencies _); cbn; [by intros [= <-]|done].
Qed.

Lemma parseTerraformApply_error (w : World) (statefilePath : string) (err : error) :
  (result (parseTerraformApply w statefilePath)).1 = inl err →
  ∀ text, err ≠ Foreign text.
Proof.
  unfold parseTerraformApply. proc_unfold.
  destruct (os_ReadFile w statefilePath); cbn; [by intros [= <-]|].
  destruct (terraform_ShowStateFile w statefilePath) as [|state]; cbn;
    [by intros [= <-]|].
  destruct (State_Values state); cbn; [|done].
  destruct (terraform_Graph w); cbn; [by intros [= <-]|].
  destruct (findDirectDependencies _); cbn; [by intros [= <-]|].
  destruct (applyAgents _ _) eqn:Hagents; cbn; [|done].
  intros [= <-]. by eapply applyAgents_error.
Qed.

Lemma afterRun_error (w : World) (start : Provision_Start)
    (statefilePath planfilePath : string) (runErr : option string) (err : error) :
  (result (afterRun w start statefilePath planfilePath runErr)).1 = Some err →
  sent (result (afterRun w start statefilePath planfilePath runErr)).2 = [] →
  ∀ text, err ≠ Foreign text.
Proof.
  unfold afterRun. destruct runErr as [errText|], (Start_DryRun start).
  - destruct (shutdown_Err w); cbn; [by intros _ ?|by intros [= <-]].
  - proc_unfold. destruct (os_ReadFile w statefilePath); cbn;
      [by intros [= <-]|by intros _ ?].
  - pose proof (parseTerraformPlan_error w planfilePath) as Herror.
    rewrite call_eq.
    destruct (result (parseTerraformPlan w planfilePath)) as [[e|response] trace];
      cbn [fst snd] in *; do 2 proc_unfold; cbn [fst snd].
    + intros [= <-] _. by apply Herror.
    + intros _ Hsent. rewrite sent_app in Hsent. by apply app_nil in Hsent as [_ ?].
  - pose proof (parseTerraformApply_error w statefilePath) as Herror.
    rewrite call_eq.
    destruct (result (parseTerraformApply w statefilePath)) as [[e|response] trace];
      cbn [fst snd] in *; do 2 proc_unfold; cbn [fst snd].
    + intros [= <-] _. by apply Herror.
    + intros _ Hsent. rewrite sent_app in Hsent. by apply app_nil in Hsent as [_ ?].
Qed.

(** X22: an error returned by a started session that has sent nothing
    is built by the program, with a format that names the failed step:
    the bare error of a library call is returned only for a failed
    receive or a failed send. *)
Theorem Provision_errors_built (t : terraform) (w : World)
    (start : Provision_Start) (err : error) :
  stream_Recv w = inr (Provision_Request_Start start) →
  (result (Provision t w)).1 = Some err →
  sent (result (Provision t w)).2 = [] →
  (∃ format args, err = Errorf format args) ∨
  (∃ format args wrapped, err = Wrapf format args wrapped).
Proof.
  intros Hrecv Herr Hsent.
  assert (∀ text, err ≠ Foreign text) as Hbuilt.
  { destruct (Provision_started t w start Hrecv)
      as [(failure & Hfailure & _ & Hbuilt)|(env & vars & Hprepared & Hroute)].
    - rewrite Hfailure in Herr. by injection Herr as <-.
    - rewrite (Provision_prepared_trace t w start env vars Hprepared Hroute)
        in Herr, Hsent.
      cbn zeta in Herr, Hsent. cbn [fst snd] in Herr, Hsent.
      rewrite sent_app in Hsent. apply app_nil in Hsent as [_ Hsent].
      by apply (afterRun_error _ _ _ _ _ _ Herr). }
  destruct err as [text|format args|format args wrapped].
  - by destruct (Hbuilt text).
  - left. by eexists _, _.
  - right. by eexists _, _, _.
Qed.

Lemma prefix_graph (t : terraform) (start : Provision_Start)
    (trace : list Event) :
  trace `prefix_of` preparation t start →
  graphRequests trace = 0%nat.
Proof.
  intros [rest Hrest].
  assert (graphRequests (preparation t start) = 0%nat) as Hzero.
  { unfold preparation.
    by destruct (0 <? length (Start_State start))%nat,
         (negb (String.eqb (cachePath t) "")). }
  rewrite Hrest, graphRequests_app in Hzero. lia.
Qed.

Lemma parseTerraformPlan_graph (w : World) (planfilePath : string) :
  (graphRequests (result (parseTerraformPlan w planfilePath)).2 ≤ 1)%nat.
Proof.
  unfold parseTerraformPlan. proc_unfold.
  destruct (terraform_ShowPlanFile w planfilePath); cbn; [lia|].
  destruct (terraform_Graph w); cbn; [lia|].
  destruct (findDirectDependencies _); cbn; lia.
Qed.

Lemma parseTerraformApply_graph (w : World) (statefilePath : string) :
  (graphRequests (result (parseTerraformApply w statefilePath)).2 ≤ 1)%nat.
Proof.
  unfold parseTerraformApply. proc_unfold.
  destruct (os_ReadFile w statefilePath); cbn; [lia|].
  destruct (terraform_ShowStateFile w statefilePath) as [|state]; cbn; [lia|].
  destruct (State_Values state); cbn; [|lia].
  destruct (terraform_Graph w); cbn; [lia|].
  destruct (findDirectDependencies _); cbn; [lia|].
  destruct (applyAgents _ _); cbn; lia.
Qed.

Lemma afterRun_graph (w : World) (start : Provision_Start)
    (statefilePath planfilePath : string) (runErr : option string) :
  (graphRequests (result (afterRun w start statefilePath planfilePath runErr)).2
   ≤ 1)%nat ∧
  (runErr ≠ None →
   graphRequests (result (afterRun w start statefilePath planfilePath runErr)).2
   = 0%nat).
Proof.
  unfold afterRun. destruct runErr as [errText|], (Start_DryRun start).
  - destruct (shutdown_Err w); cbn; split; (lia || done).
  - proc_unfold. destruct (os_ReadFile w statefilePath); cbn; split; (lia || done).
  - pose proof (parseTerraformPlan_graph w planfilePath) as Hgraph.
    rewrite call_eq.
    destruct (result (parseTerraformPlan w planfilePath)) as [[e|response] trace];
      cbn [fst snd] in *; do 2 proc_unfold; cbn [fst snd];
      rewrite graphRequests_app; cbn; (split; [lia|done]).
  - pose proof (parseTerraformApply_graph w statefilePath) as Hgraph.
    rewrite call_eq.
    destruct (result (parseTerraformApply w statefilePath)) as [[e|response] trace];
      cbn [fst snd] in *; do 2 proc_unfold; cbn [fst snd];
      rewrite graphRequests_app; cbn; (split; [lia|done]).
Qed.

(** X23: a session asks the engine for its graph at most once, and only
    after an engine command that succeeded: a session that fails early,
    or whose command fails, never asks for it. *)
Theorem Provision_graph_requests (t : terraform) (w : World) :
  (graphRequests (result (Provision t w)).2 ≤ 1)%nat ∧
  (graphRequests (result (Provision t w)).2 ≠ 0%nat →
   ∃ args env,
     invoked (result (Provision t w)).2 = [(args, env)] ∧
     cmd_Run w args env = None).
Proof.
  destruct (stream_Recv w) as [text|[start| |]] eqn:Hrecv.
  2: { destruct (Provision_started t w start Hrecv)
         as [(err & _ & Hprefix & _)|(env & vars & Hprepared & Hroute)].
       - rewrite (prefix_graph t start _ Hprefix). split; [lia|done].
       - rewrite (Provision_invokes t w start env vars Hprepared Hroute).
         rewrite (Provision_prepared_trace t w start env vars Hprepared Hroute).
         cbn zeta. cbn [fst snd].
         rewrite graphRequests_app, (prefix_graph t start (preparation t start))
           by done.
         change (graphRequests (EvRun ?b ?a ?e ?d :: ?rest))
           with (graphRequests rest).
         destruct (afterRun_graph w start
                     (filepath_Join (Start_Directory start) "terraform.tfstate")
                     (filepath_Join (Start_Directory start) "terraform.tfplan")
                     (cmd_Run w
                        (engineArgs start
                           (filepath_Join (Start_Directory start)
                              "terraform.tfplan") vars) env))
           as [Hle Hzero].
         split; [simpl; lia|]. simpl. intros Hne. eexists _, _. split; [done|].
         destruct (cmd_Run w _ env) as [errText|]; [|done].
         destruct Hne. by apply Hzero. }
  all: unfold Provision; rewrite Hrecv; cbn; (split; [lia|done]).
Qed.

End SessionInvariants.

(** The real run of the sample session whose command fails has sent a
    completion: it was prepared, with supported parameters, and ran one
    command. *)
Lemma Provision_effects_prepared_witness :
  ∃ start,
    prepared Sample.engine Sample.failedApply start ∧
    forallb isSupported (Start_ParameterValues start) = true ∧
    length (invoked (result (Provision Sample.engine Sample.failedApply)).2) =
    1%nat.
Proof.
  apply (@Provision_effects_prepared Sample.externals Sample.engine
           Sample.failedApply).
  right. vm_compute. discriminate.
Defined.

(** The sample session on an engine of version 0, when the minimum is
    1. *)
Lemma Provision_version_gate_witness :
  (result (Provision Sample.engine Sample.outdated)).1 =
  Some (Errorf "terraform version %q is too old. required >= %q"
          [ArgString (@Version_String Sample.externals 0%nat);
           ArgString (@Version_String Sample.externals 1%nat)]).
Proof.
  destruct (@Provision_version_gate Sample.externals Sample.engine
              Sample.outdated (Sample.start false) 0%nat
              eq_refl eq_refl eq_refl) as (_ & _ & _ & _ & Herr).
  apply Herr; [discriminate|reflexivity].
Defined.

(** The real run of the sample session on a state without values
    succeeds: the session returns [nil]. *)
Lemma Provision_success_witness :
  (result (Provision Sample.engine Sample.emptyApply)).1 = None.
Proof.
  rewrite (@Provision_success Sample.externals Sample.engine Sample.emptyApply
             (Sample.start false) Sample.sessionEnv Sample.sessionVars);
    [reflexivity|sample_prepared|reflexivity|reflexivity].
Defined.

(** The interrupted dry run of the sample session. *)
Lemma Provision_dry_run_stateless_witness :
  Forall (λ ev, readsState ev = false)
    (result (Provision Sample.engine Sample.cancelledPlan)).2 ∧
  ∀ complete,
    Provision_Response_Complete complete ∈
      sent (result (Provision Sample.engine Sample.cancelledPlan)).2 →
    Complete_State complete = [].
Proof.
  apply (@Provision_dry_run_stateless Sample.externals Sample.engine
           Sample.cancelledPlan (Sample.start true)); reflexivity.
Defined.


(** The completion of the failed real run of the sample session is of
    the first kind. *)
Lemma Provision_completion_kinds_witness :
  ∃ args env,
    invoked (result (Provision Sample.engine Sample.failedApply)).2 =
      [(args, env)] ∧
    ((cmd_Run Sample.failedApply args env = Some "exit status 1" ∧
      (None : option (list Resource)) = None) ∨
     (cmd_Run Sample.failedApply args env = None ∧
      "exit status 1" = "" ∧
      is_Some (None : option (list Resource)))).
Proof.
  apply (@Provision_completion_kinds Sample.externals Sample.engine
           Sample.failedApply (Sample.start false)
           {| Complete_State := Sample.stateBytes;
              Complete_Error := "exit status 1";
              Complete_Resources := None |});
    [reflexivity|apply list_elem_of_here].
Defined.

(** The environment of the command of the sample session. *)
Lemma Provision_environment_witness :
  ∃ start,
    stream_Recv Sample.failedApply = inr (Provision_Request_Start start) ∧
    Sample.sessionEnv =
      os_Environ Sample.failedApply ++
      ["CODER_URL=" +:+ Metadata_CoderUrl (Start_Metadata start);
       "CODER_WORKSPACE_TRANSITION=" +:+
         Strings.ToLower (@unicodeLower Sample.externals)
           (WorkspaceTransition_String
              (Metadata_WorkspaceTransition (Start_Metadata start)));
       "CODER_WORKSPACE_NAME=" +:+ Metadata_WorkspaceName (Start_Metadata start);
       "CODER_WORKSPACE_OWNER=" +:+ Metadata_WorkspaceOwner (Start_Metadata start)] ++
      map (λ '(key, value), key +:+ "=" +:+ value)
        (AgentScriptEnv Sample.failedApply) ++
      map assignmentOf
        (filter (λ p, isEnvironment p = true) (Start_ParameterValues start)) ∧
    match Metadata_WorkspaceTransition (Start_Metadata start) with
    | WorkspaceTransition_START =>
        "CODER_WORKSPACE_TRANSITION=start" ∈ Sample.sessionEnv
    | WorkspaceTransition_STOP =>
        "CODER_WORKSPACE_TRANSITION=stop" ∈ Sample.sessionEnv
    | WorkspaceTransition_DESTROY =>
        "CODER_WORKSPACE_TRANSITION=destroy" ∈ Sample.sessionEnv
    | WorkspaceTransition_other _ => True
    end.
Proof.
  apply (@Provision_environment Sample.externals Sample.engine Sample.failedApply
           ["apply"; "-no-color"; "-auto-approve"; "-input=false"; "-json";
            "-refresh=true"; "-destroy"; "-var"; "size=2"]).
  apply list_elem_of_here.
Defined.

(** The flags of the command of the sample session, a real run that
    destroys the workspace. *)
Lemma Provision_flags_witness :
  ∃ start,
    stream_Recv Sample.failedApply = inr (Provision_Request_Start start) ∧
    head ["apply"; "-no-color"; "-auto-approve"; "-input=false"; "-json";
          "-refresh=true"; "-destroy"; "-var"; "size=2"] =
      Some (if Start_DryRun start then "plan" else "apply") ∧
    ("-auto-approve" ∈
       ["apply"; "-no-color"; "-auto-approve"; "-input=false"; "-json";
        "-refresh=true"; "-destroy"; "-var"; "size=2"] ↔
     Start_DryRun start = false) ∧
    ("-destroy" ∈
       ["apply"; "-no-color"; "-auto-approve"; "-input=false"; "-json";
        "-refresh=true"; "-destroy"; "-var"; "size=2"] ↔
     Metadata_WorkspaceTransition (Start_Metadata start) =
     WorkspaceTransition_DESTROY).
Proof.
  apply (@Provision_flags Sample.externals Sample.engine Sample.failedApply
           ["apply"; "-no-color"; "-auto-approve"; "-input=false"; "-json";
            "-refresh=true"; "-destroy"; "-var"; "size=2"] Sample.sessionEnv).
  apply list_elem_of_here.
Defined.

(** The sample session with a parameter of an unknown destination
    returns an error built by the program. *)
Lemma Provision_errors_built_witness :
  (∃ format args,
     Errorf "unsupported parameter type %q for %q"
       [ArgScheme (ParameterDestination_other 7); ArgString "odd"] =
     Errorf format args) ∨
  (∃ format args wrapped,
     Errorf "unsupported parameter type %q for %q"
       [ArgScheme (ParameterDestination_other 7); ArgString "odd"] =
     Wrapf format args wrapped).
Proof.
  apply (@Provision_errors_built Sample.externals Sample.engine
           (Sample.world Sample.badStart None None (inl "no such file")
              Sample.noValues) Sample.badStart); reflexivity.
Defined.

(** *** The cancel listener *)

(** X24: the listener signals the shutdown exactly when a cancel
    request arrives before any failed receive; the requests it reads
    before the cancel, a repeated start among them, are ignored, and
    nothing after the cancel or after a failed receive is read. *)
Theorem cancelListener_signals (later : list (string + Provision_Request)) :
  cancelListener later = true ↔
  ∃ before after,
    later = before ++ inr Provision_Request_Cancel :: after ∧
    Forall (λ outcome,
              ∃ request, outcome = inr request ∧
                         request ≠ Provision_Request_Cancel) before.
Proof.
  split.
  - induction later as [|[text|[start| |]] later IH]; simpl; [done|done| | |].
    + intros Hlater. destruct (IH Hlater) as (before & after & -> & Hbefore).
      exists (inr (Provision_Request_Start start) :: before), after.
      split; [done|]. constructor; [|done]. by eexists.
    + intros _. by exists [], later.
    + intros Hlater. destruct (IH Hlater) as (before & after & -> & Hbefore).
      exists (inr Provision_Request_none :: before), after.
      split; [done|]. constructor; [|done]. by eexists.
  - intros (before & after & -> & Hbefore).
    induction Hbefore as [|outcome before (request & -> & Hrequest) _ IH];
      [done|].
    by destruct request.
Qed.
